(** * Column settings editor of basetool: [pages/data-sources/[dataSourceId]/tables/[tableName]/edit.tsx]

    A shallow embedding of the state logic of the table-settings page:
    [setColumnOption] (the single mutation entry point of [FieldsEditor]),
    the two effects of [ColumnEditor] that keep [required] and [nullable]
    apart, the memoised [diff] and the [changes] object sent on save.

    The page works on plain JSON data with JavaScript's dynamic objects, so
    the embedding starts with a small model of JavaScript values and of the
    few built-ins the page calls; then come lodash's [isEmpty], the [diff] of
    the deep-object-diff package, and finally the page itself. *)

From Stdlib Require Import String Ascii ZArith Bool Lia.
From Stdlib Require Import DecimalString DecimalNat.
From stdpp Require Import base list.

Local Open Scope string_scope.
Local Open Scope list_scope.

(** ** JavaScript values and built-ins *)

Module JS.

(** JSON data plus [undefined]. Numbers are integers (the page only handles
    array positions); an object is the list of its own enumerable properties
    in enumeration order. *)
Unset Elimination Schemes.
Inductive value : Type :=
| VUndef
| VNull
| VBool (b : bool)
| VNum (z : Z)
| VStr (s : string)
| VArr (xs : list value)
| VObj (es : list (string * value)).
Set Elimination Schemes.

Definition entries : Type := list (string * value).

(** Induction on values, with the hypothesis for every element of an array
    and every property value of an object. *)
Fixpoint value_ind (P : value -> Prop)
    (HU : P VUndef) (HN : P VNull) (HB : forall b, P (VBool b))
    (HZ : forall z, P (VNum z)) (HS : forall s, P (VStr s))
    (HA : forall xs, Forall P xs -> P (VArr xs))
    (HO : forall es, Forall (fun e => P e.2) es -> P (VObj es))
    (v : value) {struct v} : P v :=
  match v with
  | VUndef => HU
  | VNull => HN
  | VBool b => HB b
  | VNum z => HZ z
  | VStr s => HS s
  | VArr xs =>
      HA xs ((fix items (xs : list value) : Forall P xs :=
                match xs with
                | [] => @List.Forall_nil _ P
                | x :: xs' =>
                    @List.Forall_cons _ P x xs' (value_ind P HU HN HB HZ HS HA HO x) (items xs')
                end) xs)
  | VObj es =>
      HO es ((fix props (es : list (string * value)) : Forall (fun e => P e.2) es :=
                match es with
                | [] => @List.Forall_nil _ (fun e => P e.2)
                | e :: es' =>
                    @List.Forall_cons _ (fun e => P e.2) e es'
                      (value_ind P HU HN HB HZ HS HA HO e.2) (props es')
                end) es)
  end.

(** Result of code that may throw; [OutOfFuel] is only produced by the
    bounded re-render loop of the page model. *)
Inductive result (A : Type) : Type :=
| Ok (a : A)
| TypeError
| OutOfFuel.
Arguments Ok {A} a.
Arguments TypeError {A}.
Arguments OutOfFuel {A}.

#[global] Instance result_ret : MRet result := fun A a => Ok a.

#[global] Instance result_bind : MBind result := fun A B k r =>
  match r with
  | Ok a => k a
  | TypeError => TypeError
  | OutOfFuel => OutOfFuel
  end.

(** ToBoolean. *)
Definition truthy (v : value) : bool :=
  match v with
  | VUndef | VNull => false
  | VBool b => b
  | VNum z => negb (z =? 0)%Z
  | VStr s => negb (s =? "")
  | VArr _ | VObj _ => true
  end.

Definition nullish (v : value) : bool :=
  match v with
  | VUndef | VNull => true
  | _ => false
  end.

(** [typeof v === "object" && v !== null]. *)
Definition is_object (v : value) : bool :=
  match v with
  | VArr _ | VObj _ => true
  | _ => false
  end.

(** [a === b] and [Object.is(a, b)] (they differ only on NaN and -0, which
    integers do not have). Primitives are compared by value. Arrays and
    objects are compared by identity in JavaScript; the embedding has no
    identities and answers [false] for them, as for two distinct objects. *)
Definition strict_equal (a b : value) : bool :=
  match a, b with
  | VUndef, VUndef => true
  | VNull, VNull => true
  | VBool x, VBool y => Bool.eqb x y
  | VNum x, VNum y => (x =? y)%Z
  | VStr x, VStr y => (x =? y)
  | _, _ => false
  end.

(** The property key of array position [i]: its decimal numeral. *)
Definition index_key (i : nat) : string :=
  NilEmpty.string_of_uint (Nat.to_uint i).

(** [array_index k = Some i] when [k] is the canonical numeral of [i]
    (no sign, no leading zero). Array lengths are not bounded here, so
    neither are array indices. *)
Definition array_index (k : string) : option nat :=
  match NilEmpty.uint_of_string k with
  | Some u => let i := Nat.of_uint u in
              if index_key i =? k then Some i else None
  | None => None
  end.

Fixpoint indexed (i : nat) (xs : list value) : entries :=
  match xs with
  | [] => []
  | x :: xs' => (index_key i, x) :: indexed (S i) xs'
  end.

Fixpoint chars (s : string) : list value :=
  match s with
  | EmptyString => []
  | String a s' => VStr (String a EmptyString) :: chars s'
  end.

(** Own enumerable string-keyed properties, in enumeration order: what
    [Object.entries], [Object.keys] and the spread [{...v}] see. *)
Definition own_entries (v : value) : entries :=
  match v with
  | VObj es => es
  | VArr xs => indexed 0 xs
  | VStr s => indexed 0 (chars s)
  | _ => []
  end.

Fixpoint lookup_key (k : string) (es : entries) : option value :=
  match es with
  | [] => None
  | (k', v) :: es' => if k' =? k then Some v else lookup_key k es'
  end.

Definition has_length (v : value) : option nat :=
  match v with
  | VArr xs => Some (length xs)
  | VStr s => Some (String.length s)
  | _ => None
  end.

(** [v.hasOwnProperty(k)]. *)
Definition has_own (v : value) (k : string) : bool :=
  match lookup_key k (own_entries v) with
  | Some _ => true
  | None => match has_length v with
            | Some _ => k =? "length"
            | None => false
            end
  end.

(** [v[k]] for a [v] that is not [null] or [undefined]. Inherited
    properties (the methods of the prototypes) are not modelled: the page
    reads a computed key only to spread the result, and spreading a function
    or [undefined] both give no property. *)
Definition get (v : value) (k : string) : value :=
  match lookup_key k (own_entries v) with
  | Some x => x
  | None => match has_length v with
            | Some n => if k =? "length" then VNum (Z.of_nat n) else VUndef
            | None => VUndef
            end
  end.

(** [v.k] in general: reading a property of [null] or [undefined] throws. *)
Definition member (v : value) (k : string) : result value :=
  if nullish v then TypeError else Ok (get v k).

Definition has_key (k : string) (es : entries) : bool :=
  match lookup_key k es with Some _ => true | None => false end.

Fixpoint replace_key (k : string) (v : value) (es : entries) : entries :=
  match es with
  | [] => []
  | (k', v') :: es' =>
      if k' =? k then (k', v) :: es' else (k', v') :: replace_key k v es'
  end.

(** A new array index goes before the first property that is not a smaller
    array index. *)
Fixpoint insert_index (i : nat) (k : string) (v : value) (es : entries) : entries :=
  match es with
  | [] => [(k, v)]
  | (k', v') :: es' =>
      match array_index k' with
      | Some j => if (j <? i)%nat then (k', v') :: insert_index i k v es'
                  else (k, v) :: es
      | None => (k, v) :: es
      end
  end.

(** [o[k] = v] on an ordinary object: an existing property keeps its place;
    a new one is enumerated after the older ones, except that array indices
    come first, in ascending order. *)
Definition obj_set (k : string) (v : value) (es : entries) : entries :=
  if has_key k es then replace_key k v es
  else match array_index k with
       | Some i => insert_index i k v es
       | None => es ++ [(k, v)]
       end.

Definition z_to_string (z : Z) : string :=
  NilEmpty.string_of_int (Z.to_int z).

Fixpoint join (sep : string) (l : list string) : string :=
  match l with
  | [] => ""
  | [s] => s
  | s :: l' => (s ++ sep ++ join sep l')%string
  end.

(** ToString, as used by ToPropertyKey for a computed key. *)
Fixpoint to_string (v : value) : string :=
  match v with
  | VUndef => "undefined"
  | VNull => "null"
  | VBool true => "true"
  | VBool false => "false"
  | VNum z => z_to_string z
  | VStr s => s
  | VArr xs =>
      join "," (List.map (fun x => if nullish x then "" else to_string x) xs)
  | VObj _ => "[object Object]"
  end.

(** [Object.fromEntries]: each entry is read at positions 0 and 1. *)
Definition fromEntries (l : list (value * value)) : value :=
  VObj (fold_left (fun acc e => obj_set (to_string (fst e)) (snd e) acc) l []).

(** [Object.entries(v)]. *)
Definition Object_entries (v : value) : result entries :=
  if nullish v then TypeError else Ok (own_entries v).


Definition is_space (a : ascii) : bool :=
  let n := nat_of_ascii a in
  ((n =? 32) || ((9 <=? n) && (n <=? 13)))%nat.

Definition is_digit (a : ascii) : bool :=
  let n := nat_of_ascii a in
  ((48 <=? n) && (n <=? 57))%nat.

Fixpoint skip_spaces (s : string) : string :=
  match s with
  | String a s' => if is_space a then skip_spaces s' else s
  | EmptyString => s
  end.

Fixpoint digits_prefix (s : string) : string :=
  match s with
  | String a s' => if is_digit a then String a (digits_prefix s') else ""
  | EmptyString => ""
  end.

Definition parse_digits (s : string) : option Z :=
  match digits_prefix s with
  | EmptyString => None
  | ds => match NilEmpty.uint_of_string ds with
          | Some u => Some (Z.of_nat (Nat.of_uint u))
          | None => None
          end
  end.

(** [parseInt(s, 10)]: leading white space, an optional sign, then the
    longest run of digits; [None] is NaN. *)
Definition parseInt (s : string) : option Z :=
  match skip_spaces s with
  | String "-" s' => option_map Z.opp (parse_digits s')
  | String "+" s' => parse_digits s'
  | s' => parse_digits s'
  end.

(** [xs[n]] for a number [n]. *)
Definition at_number (xs : list value) (n : option Z) : value :=
  match n with
  | Some z => if (0 <=? z)%Z then default VUndef (xs !! Z.to_nat z) else VUndef
  | None => VUndef
  end.

Fixpoint split_from (sep : ascii) (cur : string) (s : string) : list string :=
  match s with
  | EmptyString => [cur]
  | String a s' =>
      if Ascii.eqb a sep then cur :: split_from sep "" s'
      else split_from sep (cur ++ String a "")%string s'
  end.

(** [s.split(sep)] for a one-character separator. *)
Definition split (sep : ascii) (s : string) : list string :=
  split_from sep "" s.

End JS.

Import JS.

(** ** lodash *)

Module Lodash.

(** [isEmpty(v)]: no elements for an array or a string, no own property
    for an object; [true] for [null], [undefined], numbers and booleans. *)
Definition isEmpty (v : value) : bool :=
  match v with
  | VUndef | VNull | VBool _ | VNum _ => true
  | VStr s => (s =? "")
  | VArr xs => match xs with [] => true | _ => false end
  | VObj es => match es with [] => true | _ => false end
  end.

End Lodash.

(** ** deep-object-diff *)

Module DeepObjectDiff.

(** [Object.keys(o).length === 0], for an [o] that is an object. *)
Definition isEmpty (o : value) : bool :=
  match own_entries o with [] => true | _ => false end.

(** The keys of [l] that [r] lacks, each bound to [undefined]. *)
Definition deletedValues (l r : value) : entries :=
  fold_left
    (fun acc e => if has_own r (fst e) then acc else obj_set (fst e) VUndef acc)
    (own_entries l) [].

(** One step of the reduction over the keys of [r]: [x] is [r[key]] and [d]
    is [diff(l[key], r[key])]. *)
Definition updated (l : value) (key : string) (x d : value) (acc : entries) : entries :=
  if negb (has_own l key) then obj_set key x acc
  else if is_object d && isEmpty d then acc
  else obj_set key d acc.

Definition reduce_items (rec : value -> value -> value) (l : value) :=
  fix go (i : nat) (xs : list value) (acc : entries) {struct xs} : entries :=
    match xs with
    | [] => acc
    | x :: xs' =>
        go (S i) xs' (updated l (index_key i) x (rec (get l (index_key i)) x) acc)
    end.

Definition reduce_props (rec : value -> value -> value) (l : value) :=
  fix go (es : list (string * value)) (acc : entries) {struct es} : entries :=
    match es with
    | [] => acc
    | e :: es' =>
        go es' (updated l (fst e) (snd e) (rec (get l (fst e)) (snd e)) acc)
    end.

(** [diff(lhs, rhs)] of deep-object-diff 1.1.0, on JSON data (no [Date]):
    [{}] when [lhs === rhs], [rhs] when one side is not an object, and else
    the properties of [rhs] that are new or have a non-empty difference,
    after the properties only [lhs] has, which are bound to [undefined].
    An array is an object whose keys are its positions. For one and the
    same object the library answers [{}] at once; here the comparison of its
    properties gives the same answer (lemma [diff_same]). *)
Fixpoint diff (lhs rhs : value) {struct rhs} : value :=
  if strict_equal lhs rhs then VObj []
  else if negb (is_object lhs) then rhs
  else match rhs with
       | VArr xs => VObj (reduce_items diff lhs 0 xs (deletedValues lhs rhs))
       | VObj es => VObj (reduce_props diff lhs es (deletedValues lhs rhs))
       | _ => rhs
       end.

End DeepObjectDiff.

(** ** The page *)

(** State of [FieldsEditor]: the working [columns] and the selected
    [column] ([undefined] until one is selected). The baseline
    [initialColumns] is a prop and never changes. *)
Record store : Type := Store {
  columns : list value;
  column : value
}.

Module ColumnEditor.

(** One invocation [setColumnOption(c, name, value)] of the callback prop. *)
Definition call : Type := value * string * value.

(** Dependencies of the two effects, evaluated while rendering:
    [[column.baseOptions.required]] and [[column.baseOptions.nullable]]. *)
Definition deps (column : value) : result (value * value) :=
  r ← member (get column "baseOptions") "required";
  n ← member (get column "baseOptions") "nullable";
  mret (r, n).

(** First effect: a required column is made not nullable. *)
Definition requiredEffect (column : value) : result (list call) :=
  r ← member (get column "baseOptions") "required";
  if truthy r then mret [(column, "baseOptions.nullable", VBool false)]
  else mret [].

(** Second effect: a nullable column is made not required, and gets the
    empty string as null value when it has none. *)
Definition nullableEffect (column : value) : result (list call) :=
  n ← member (get column "baseOptions") "nullable";
  if truthy n then
    nv ← member (get column "baseOptions") "nullValues";
    mret ((column, "baseOptions.required", VBool false) ::
          (if Lodash.isEmpty nv
           then [(column, "baseOptions.nullValues", VArr [VStr ""])]
           else []))
  else mret [].

(** The calls made by the effects after a render of [column], given the
    dependencies [prev] of the previous render ([None] when the editor has
    just been mounted): an effect runs when its dependency has changed. *)
Definition effects (prev : option (value * value)) (column : value)
  : result (value * value * list call) :=
  cur ← deps column;
  let changed (sel : value * value -> value) :=
    match prev with
    | Some p => negb (strict_equal (sel p) (sel cur))
    | None => true
    end in
  c1 ← (if changed fst then requiredEffect column else mret []);
  c2 ← (if changed snd then nullableEffect column else mret []);
  mret (cur, c1 ++ c2).

End ColumnEditor.

Module FieldsEditor.

(** [diff = difference(initialColumns, columns)]. *)
Definition diff (initialColumns columns : list value) : value :=
  DeepObjectDiff.diff (VArr initialColumns) (VArr columns).

Definition isDirty (diff : value) : bool :=
  negb (Lodash.isEmpty diff).

(** The [changesObject] of one column: its delta [changes], with the
    current [visibility] forced in and [fieldOptions] copied. *)
Definition changesObject (column changes : value) : result value :=
  changesBase ← member changes "baseOptions";
  visibility ← member (get column "baseOptions") "visibility";
  changesField ← member changes "fieldOptions";
  mret (VObj (obj_set "fieldOptions" (VObj (own_entries changesField))
               (obj_set "baseOptions"
                  (VObj (obj_set "visibility" visibility (own_entries changesBase)))
                  (own_entries changes)))).

(** The entry of [changes] for one entry of [diff]. An entry whose column
    is missing becomes the empty array [[]], read by [Object.fromEntries]
    as key [undefined] and value [undefined]. *)
Definition changesEntry (columns : list value) (e : string * value)
  : result (value * value) :=
  let '(columnIndex, changes) := e in
  let column := at_number columns (parseInt columnIndex) in
  if negb (truthy column) then mret (VUndef, VUndef)
  else
    changesObject ← changesObject column changes;
    mret (get column "name", changesObject).

(** [changes]: the diff re-keyed by column name. *)
Definition changes (diff : value) (columns : list value) : result value :=
  es ← Object_entries diff;
  l ← mapM (changesEntry columns) es;
  mret (fromEntries l).

(** The column built by [setColumnOption]: a copy of [column] with one
    option set. A name of exactly two dot-separated segments addresses an
    option inside a namespace; the namespace is used when it is truthy. *)
Definition newColumn (column : value) (name : string) (value : value)
  : result JS.value :=
  let segments := split "." name in
  let namespace := match segments with [s0; _] => Some s0 | _ => None end in
  let name := match segments with [_; s1] => s1 | _ => name end in
  match namespace with
  | Some ns =>
      if negb (ns =? "") then
        inner ← member column ns;
        mret (VObj (obj_set ns (VObj (obj_set name value (own_entries inner)))
                      (own_entries column)))
      else mret (VObj (obj_set name value (own_entries column)))
  | None => mret (VObj (obj_set name value (own_entries column)))
  end.

(** [columns.findIndex(c => c.name === column.name)]; [None] is -1. *)
Fixpoint findColumn (columns : list value) (column : value) : result (option nat) :=
  match columns with
  | [] => mret None
  | c :: columns' =>
      n ← member c "name";
      m ← member column "name";
      if strict_equal n m then mret (Some 0)
      else i ← findColumn columns' column; mret (option_map S i)
  end.

(** [setColumnOption(column, name, value)] in a render whose working
    sequence is [columns]: the new state, or [None] when no state is set
    because no column has the name of [column]. *)
Definition setColumnOption (columns : list value) (column : value)
    (name : string) (value : value) : result (option store) :=
  newColumn ← newColumn column name value;
  index ← findColumn columns column;
  match index with
  | Some index => mret (Some (Store (<[index := newColumn]> columns) newColumn))
  | None => mret None
  end.

(** The callback is a closure of one render: all the calls made by the
    effects of that render see the same [columns]. React applies the state
    updates queued while effects run together, before the next render, so
    of several [setColumns] and [setColumn] the last one wins. *)
Fixpoint runCalls (columns : list value) (calls : list ColumnEditor.call)
    (pending : option store) : result (option store) :=
  match calls with
  | [] => mret pending
  | c :: calls' =>
      u ← setColumnOption columns c.1.1 c.1.2 c.2;
      runCalls columns calls' (match u with Some st => Some st | None => pending end)
  end.

(** Re-rendering until no effect sets state. [ColumnEditor] is rendered
    only when [column] is truthy. *)
Fixpoint settle (fuel : nat) (prev : option (value * value)) (st : store)
  : result store :=
  match fuel with
  | O => OutOfFuel
  | S fuel' =>
      if truthy (column st) then
        r ← ColumnEditor.effects prev (column st);
        u ← runCalls (columns st) r.2 None;
        match u with
        | Some st' => settle fuel' (Some r.1) st'
        | None => mret st
        end
      else mret st
  end.

(** Dependencies stored by the last render of the editor, if it is
    mounted. *)
Definition lastDeps (st : store) : result (option (value * value)) :=
  if truthy (column st) then d ← ColumnEditor.deps (column st); mret (Some d)
  else mret None.

(** The mutation entry point as the page runs it: an event handler calls
    [setColumnOption(c, name, value)], then the page re-renders and the
    effects run until the state is at rest. *)
Definition mutate (fuel : nat) (st : store) (c : value) (name : string)
    (value : value) : result store :=
  u ← setColumnOption (columns st) c name value;
  match u with
  | Some st' => prev ← lastDeps st; settle fuel prev st'
  | None => mret st
  end.

(** Clicking a column in the list: [setColumn(col)]. *)
Definition select (fuel : nat) (st : store) (col : value) : result store :=
  prev ← lastDeps st; settle fuel prev (Store (columns st) col).

(** Mounting the page: [columns] starts as [initialColumns], and the mount
    effect selects the first column, if any. *)
Definition mount (fuel : nat) (initialColumns : list value) : result store :=
  match initialColumns with
  | [] => mret (Store initialColumns VUndef)
  | c :: _ => settle fuel None (Store initialColumns c)
  end.

End FieldsEditor.

(** ** The column data model *)

Module Column.

(** A boolean option, possibly absent. *)
Definition is_flag (v : value) : bool :=
  match v with
  | VBool _ | VUndef => true
  | _ => false
  end.

(** Modelled from the spec: the type [Column] is imported from
    [features/fields/types], which is not among the sources. The data model
    gives a column a string [name] and an object [baseOptions] whose
    [required] and [nullable] are booleans. *)
Definition is_column (c : value) : bool :=
  match c with
  | VObj _ =>
      match get c "name", get c "baseOptions" with
      | VStr _, VObj bo =>
          is_flag (get (VObj bo) "required") && is_flag (get (VObj bo) "nullable")
      | _, _ => false
      end
  | _ => false
  end.

Definition mem (s : string) (l : list string) : bool :=
  existsb (String.eqb s) l.

(** Modelled from the spec: the option paths that resolve to a field of the
    data model. [fieldOptions] is an open mapping, so every path inside it
    resolves. *)
Definition known_field (path : string) : bool :=
  match split "." path with
  | [top] =>
      mem top ["name"; "fieldType"; "label"; "baseOptions"; "fieldOptions";
               "dataSourceInfo"]
  | [ns; n] =>
      if ns =? "baseOptions" then
        mem n ["label"; "placeholder"; "help"; "defaultValue"; "required";
               "nullable"; "nullValues"; "disconnected"; "visibility"]
      else if ns =? "fieldOptions" then true
      else if ns =? "dataSourceInfo" then mem n ["nullable"]
      else false
  | _ => false
  end.

(** The option a path addresses, read the way [setColumnOption] writes it. *)
Definition optionAt (column : value) (path : string) : value :=
  match split "." path with
  | [ns; n] => if negb (ns =? "") then get (get column ns) n else get column n
  | _ => get column path
  end.

Definition baseOption (column : value) (n : string) : value :=
  get (get column "baseOptions") n.

(** [x'] has the own properties of [x], with their values, and no other,
    the property [k] apart. *)
Definition same_but (k : string) (x x' : value) : Prop :=
  forall k', k' <> k ->
    lookup_key k' (own_entries x') = lookup_key k' (own_entries x).

(** [c'] is a copy of [c] but for the option that [path] addresses: for an
    option [n] of a namespace [ns], every top-level field other than [ns],
    and inside [ns] every option other than [n], is as in [c]; for a
    top-level field, every other top-level field is as in [c]. *)
Definition copy_but (path : string) (c c' : value) : Prop :=
  match split "." path with
  | [ns; n] =>
      if negb (ns =? "") then same_but ns c c' /\ same_but n (get c ns) (get c' ns)
      else same_but n c c'
  | _ => same_but path c c'
  end.

Fixpoint distinct (l : list string) : bool :=
  match l with
  | [] => true
  | k :: l' => negb (mem k l') && distinct l'
  end.

(** Own keys are pairwise distinct, at every depth: true of every
    JavaScript object. *)
Fixpoint well_formed (v : value) : bool :=
  match v with
  | VArr xs =>
      (fix all (xs : list value) : bool :=
         match xs with
         | [] => true
         | x :: xs' => well_formed x && all xs'
         end) xs
  | VObj es =>
      distinct es.*1 &&
      (fix all (es : list (string * value)) : bool :=
         match es with
         | [] => true
         | e :: es' => well_formed e.2 && all es'
         end) es
  | _ => true
  end.

(** The property keys under which the columns of a sequence are sent. *)
Definition names (columns : list value) : list string :=
  (fun c => to_string (get c "name")) <$> columns.

(** A column the page can render and send: an object with an object
    [baseOptions]. *)
Definition is_record (c : value) : bool :=
  match c with
  | VObj _ => match get c "baseOptions" with VObj _ => true | _ => false end
  | _ => false
  end.

(** An entry of a diff that addresses a column of [columns] by position
    and carries a delta for it. *)
Definition addresses (columns : list value) (e : string * value) : bool :=
  match array_index e.1 with
  | Some j => match columns !! j with
              | Some c => is_record c && negb (nullish e.2)
              | None => false
              end
  | None => false
  end.

(** A difference that is not the empty object. *)
Definition is_delta (d : value) : bool :=
  negb (is_object d && DeepObjectDiff.isEmpty d).

End Column.

(** ** Sample data *)

Module Samples.

Definition views : value :=
  VArr [VStr "index"; VStr "show"; VStr "edit"; VStr "new"].

Definition sample (name : string) (required nullable : bool)
    (nullValues : list value) (fieldOptions : entries) : value :=
  VObj [("name", VStr name);
        ("fieldType", VStr "Text");
        ("baseOptions",
          VObj [("required", VBool required);
                ("nullable", VBool nullable);
                ("nullValues", VArr nullValues);
                ("visibility", views)]);
        ("fieldOptions", VObj fieldOptions);
        ("dataSourceInfo", VObj [("nullable", VBool true)])].

Definition id : value := sample "id" true false [] [].

(** A required column without null values. *)
Definition email : value := sample "email" true false [] [].

Definition title : value := sample "title" false false [] [].

Definition notes : value := sample "notes" false true [VStr ""] [].

(** [notes] with one more null value. *)
Definition notes2 : value := sample "notes" false true [VStr ""; VStr "null"] [].

(** [title], made required. *)
Definition title2 : value := sample "title" true false [] [].

Definition body : value :=
  sample "body" false false [] [("rows", VNum 3); ("cols", VNum 2)].

(** [body] with one field option changed. *)
Definition body2 : value :=
  sample "body" false false [] [("rows", VNum 5); ("cols", VNum 2)].

Definition tags : value := sample "tags" false false [] [("choices", VArr [])].

(** [tags] with the empty array of choices replaced by an empty object. *)
Definition tags2 : value := sample "tags" false false [] [("choices", VObj [])].

(** A column that is required and nullable at once. *)
Definition both : value := sample "email" true true [VStr ""] [].

End Samples.

(** ** The form controls of the column editor *)

Module Controls.

(** [Object.values(v)]. *)
Definition Object_values (v : value) : result (list value) :=
  if nullish v then TypeError else Ok (own_entries v).*2.

(** [xs.includes(v)]. *)
Definition includes (xs : list value) (v : value) : bool :=
  existsb (fun x => strict_equal x v) xs.

(** lodash's [without(xs, v)]: [xs] without the elements equal to [v]. *)
Definition without (xs : list value) (v : value) : list value :=
  List.filter (fun x => negb (strict_equal x v)) xs.

(** The checkbox "Disconnected". *)
Definition disconnectedChange (column : value) : result ColumnEditor.call :=
  v ← member (get column "baseOptions") "disconnected";
  mret (column, "baseOptions.disconnected", VBool (negb (truthy v))).

(** The checkbox "Required". *)
Definition requiredChange (column : value) : result ColumnEditor.call :=
  v ← member (get column "baseOptions") "required";
  mret (column, "baseOptions.required", VBool (negb (truthy v))).

(** The checkbox "Nullable". *)
Definition nullableChange (column : value) : result ColumnEditor.call :=
  v ← member (get column "baseOptions") "nullable";
  mret (column, "baseOptions.nullable", VBool (negb (truthy v))).

(** [isChecked] of the checkbox of one null value. *)
Definition nullValueChecked (column : value) (value : value) : result bool :=
  nullValues ← member (get column "baseOptions") "nullValues";
  vs ← Object_values nullValues;
  mret (includes vs value).

(** [onChange] of the checkbox of one null value; [checked] is the new
    state of the checkbox. *)
Definition nullValueChange (column : value) (value : value) (checked : bool)
  : result ColumnEditor.call :=
  nullValues ← member (get column "baseOptions") "nullValues";
  let newNullValues := (own_entries (VObj (own_entries nullValues))).*2 in
  let newNullValues :=
    if checked then newNullValues ++ [value] else without newNullValues value in
  mret (column, "baseOptions.nullValues", VArr newNullValues).

(** A control of the editor is used: its handler, applied to the column
    the editor shows, calls [setColumnOption]; then the page re-renders. *)
Definition handle (fuel : nat) (st : store)
    (handler : value -> result ColumnEditor.call) : result store :=
  c ← handler (column st);
  FieldsEditor.mutate fuel st c.1.1 c.1.2 c.2.

End Controls.

(** ** What the two effects amount to *)

Module Rest.

(** An effect makes its calls when its dependency has changed since the
    previous render (or the editor was just mounted) and is truthy. *)
Definition fired (prev : option (value * value))
    (sel : value * value -> value) (cur : value) : bool :=
  match prev with
  | Some p => negb (strict_equal (sel p) cur)
  | None => true
  end && truthy cur.

(** The column the editor comes to rest on after rendering [c]: the one
    built by the last call the effects make, if they make any. *)
Definition column (prev : option (value * value)) (c : value) : result value :=
  if fired prev snd (Column.baseOption c "nullable") then
    if Lodash.isEmpty (Column.baseOption c "nullValues")
    then FieldsEditor.newColumn c "baseOptions.nullValues" (VArr [VStr ""])
    else FieldsEditor.newColumn c "baseOptions.required" (VBool false)
  else if fired prev fst (Column.baseOption c "required") then
    FieldsEditor.newColumn c "baseOptions.nullable" (VBool false)
  else mret c.


End Rest.

(** ** More sample data *)

Module Samples2.

(** A column that carries the option [disconnected]. *)
Definition hidden : value :=
  VObj [("name", VStr "secret");
        ("fieldType", VStr "Text");
        ("baseOptions",
          VObj [("required", VBool false);
                ("nullable", VBool false);
                ("nullValues", VArr []);
                ("disconnected", VBool false);
                ("visibility", Samples.views)]);
        ("fieldOptions", VObj []);
        ("dataSourceInfo", VObj [("nullable", VBool true)])].

End Samples2.

(** * Properties *)

(** Runs the steps of the result monad that are determined. *)
Ltac run := unfold mbind, mret, result_bind, result_ret, member in *; simpl in *.

(** ** Array positions as property keys *)

Section IndexKeys.

Lemma digits_prefix_numeral (u : Decimal.uint) :
  digits_prefix (NilEmpty.string_of_uint u) = NilEmpty.string_of_uint u.
Proof. induction u; simpl; congruence. Qed.

Lemma to_uint_not_nil (i : nat) : Nat.to_uint i <> Decimal.Nil.
Proof.
  intros H. pose proof (Unsigned.of_to i) as Hi. rewrite H in Hi.
  simpl in Hi. subst i. discriminate H.
Qed.

Lemma parse_digits_numeral (u : Decimal.uint) :
  u <> Decimal.Nil ->
  parse_digits (NilEmpty.string_of_uint u) = Some (Z.of_nat (Nat.of_uint u)).
Proof.
  intros Hu. unfold parse_digits. rewrite digits_prefix_numeral.
  pose proof (NilEmpty.usu u) as Hs.
  destruct (NilEmpty.string_of_uint u) eqn:E.
  - destruct u; try discriminate E. contradiction.
  - now rewrite Hs.
Qed.

Lemma parseInt_numeral (u : Decimal.uint) :
  u <> Decimal.Nil ->
  parseInt (NilEmpty.string_of_uint u) = Some (Z.of_nat (Nat.of_uint u)).
Proof.
  intros Hu. pose proof (parse_digits_numeral u Hu) as Hp.
  destruct u; try contradiction; exact Hp.
Qed.

Lemma parseInt_index_key (i : nat) : parseInt (index_key i) = Some (Z.of_nat i).
Proof.
  unfold index_key. rewrite parseInt_numeral by apply to_uint_not_nil.
  now rewrite Unsigned.of_to.
Qed.

Lemma index_key_inj (i j : nat) : index_key i = index_key j -> i = j.
Proof.
  unfold index_key. intros H. apply Unsigned.to_uint_inj.
  apply (f_equal NilEmpty.uint_of_string) in H.
  rewrite !NilEmpty.usu in H. congruence.
Qed.

Lemma array_index_index_key (i : nat) : array_index (index_key i) = Some i.
Proof.
  unfold array_index. unfold index_key at 1. rewrite NilEmpty.usu.
  cbv zeta. rewrite Unsigned.of_to, String.eqb_refl. reflexivity.
Qed.

Lemma at_number_index_key (xs : list value) (i : nat) :
  at_number xs (parseInt (index_key i)) = default VUndef (xs !! i).
Proof.
  rewrite parseInt_index_key. unfold at_number.
  destruct (Z.leb_spec 0 (Z.of_nat i)); [| lia]. now rewrite Nat2Z.id.
Qed.

End IndexKeys.

(** ** Objects as property lists *)

Section Properties.

Implicit Types (k : string) (v x : value) (es : entries).

Lemma lookup_key_cons_eq k v es : lookup_key k ((k, v) :: es) = Some v.
Proof. simpl. now rewrite String.eqb_refl. Qed.

Lemma lookup_key_cons_ne k k' v es :
  k' <> k -> lookup_key k ((k', v) :: es) = lookup_key k es.
Proof. intros H. simpl. apply String.eqb_neq in H. now rewrite H. Qed.

Lemma lookup_key_elem k v es : lookup_key k es = Some v -> (k, v) ∈ es.
Proof.
  induction es as [| [k' v'] es IH]; simpl; [discriminate |].
  destruct (String.eqb_spec k' k) as [-> | Hne].
  - intros [= ->]. left.
  - intros H. right. auto.
Qed.

Lemma lookup_key_None k es : lookup_key k es = None <-> k ∉ es.*1.
Proof.
  induction es as [| [k' v'] es IH]; simpl.
  - split; [intros _; apply not_elem_of_nil | reflexivity].
  - rewrite not_elem_of_cons. destruct (String.eqb_spec k' k) as [-> | Hne].
    + split; [discriminate | intros [H _]; now contradict H].
    + rewrite IH. split; [intros H; split; auto | intros [_ H]; exact H].
Qed.

Lemma lookup_key_NoDup k v es :
  NoDup es.*1 -> (k, v) ∈ es -> lookup_key k es = Some v.
Proof.
  induction es as [| [k' v'] es IH]; simpl.
  - intros _ H. now apply elem_of_nil in H.
  - rewrite NoDup_cons. intros [Hk Hnd] Hin.
    apply elem_of_cons in Hin as [[= -> ->] | Hin].
    + now rewrite String.eqb_refl.
    + destruct (String.eqb_spec k' k) as [-> | Hne]; [| auto].
      contradict Hk. now apply (list_elem_of_fmap_2 fst _ (k, v)).
Qed.

Lemma has_key_true k es : has_key k es = true <-> exists v, lookup_key k es = Some v.
Proof.
  unfold has_key. destruct (lookup_key k es) as [v |].
  - split; eauto.
  - split; [discriminate | intros [v [=]]].
Qed.

Lemma has_key_false k es : has_key k es = false <-> lookup_key k es = None.
Proof.
  unfold has_key. destruct (lookup_key k es); split; congruence.
Qed.

Lemma lookup_replace_eq k v es :
  has_key k es = true -> lookup_key k (replace_key k v es) = Some v.
Proof.
  rewrite has_key_true. intros [w Hw].
  induction es as [| [k' v'] es IH]; simpl in *; [discriminate |].
  destruct (String.eqb_spec k' k) as [-> | Hne]; simpl.
  - now rewrite String.eqb_refl.
  - apply String.eqb_neq in Hne. rewrite Hne. auto.
Qed.

Lemma lookup_replace_ne k k' v es :
  k' <> k -> lookup_key k' (replace_key k v es) = lookup_key k' es.
Proof.
  intros Hne. induction es as [| [k0 v0] es IH]; simpl; [reflexivity |].
  destruct (String.eqb_spec k0 k) as [-> | Hk]; simpl.
  - apply not_eq_sym, String.eqb_neq in Hne. now rewrite Hne.
  - now rewrite IH.
Qed.

Lemma lookup_insert_index_eq i k v es :
  lookup_key k es = None -> lookup_key k (insert_index i k v es) = Some v.
Proof.
  induction es as [| [k' v'] es IH]; simpl.
  - intros _. now rewrite String.eqb_refl.
  - destruct (String.eqb_spec k' k) as [-> | Hne]; [discriminate |]. intros H.
    destruct (array_index k') as [j |]; [destruct (j <? i)%nat |]; simpl;
      rewrite ?String.eqb_refl; try reflexivity.
    apply String.eqb_neq in Hne. rewrite Hne. auto.
Qed.

Lemma lookup_insert_index_ne i k k' v es :
  k' <> k -> lookup_key k' (insert_index i k v es) = lookup_key k' es.
Proof.
  intros Hne. apply not_eq_sym, String.eqb_neq in Hne.
  induction es as [| [k0 v0] es IH]; simpl.
  - now rewrite Hne.
  - destruct (array_index k0) as [j |]; [destruct (j <? i)%nat |]; simpl;
      rewrite ?Hne, ?IH; reflexivity.
Qed.

Lemma lookup_key_app k es es' :
  lookup_key k (es ++ es') =
  match lookup_key k es with Some v => Some v | None => lookup_key k es' end.
Proof.
  induction es as [| [k0 v0] es IH]; simpl; [reflexivity |].
  destruct (k0 =? k)%string; auto.
Qed.

(** Reading back the property that was just set. *)
Lemma lookup_obj_set_eq k v es : lookup_key k (obj_set k v es) = Some v.
Proof.
  unfold obj_set. destruct (has_key k es) eqn:E.
  - now apply lookup_replace_eq.
  - apply has_key_false in E. destruct (array_index k).
    + now apply lookup_insert_index_eq.
    + rewrite lookup_key_app, E. apply lookup_key_cons_eq.
Qed.

(** The other properties are untouched. *)
Lemma lookup_obj_set_ne k k' v es :
  k' <> k -> lookup_key k' (obj_set k v es) = lookup_key k' es.
Proof.
  intros Hne. unfold obj_set. destruct (has_key k es).
  - now apply lookup_replace_ne.
  - destruct (array_index k).
    + now apply lookup_insert_index_ne.
    + rewrite lookup_key_app. destruct (lookup_key k' es); [reflexivity |].
      now apply lookup_key_cons_ne.
Qed.

Lemma obj_set_nil k v : obj_set k v [] = [(k, v)].
Proof. unfold obj_set. simpl. now destruct (array_index k). Qed.

Lemma get_lookup k v es : lookup_key k es = Some v -> get (VObj es) k = v.
Proof. intros H. unfold get. simpl. now rewrite H. Qed.

Lemma get_obj_set_eq k v es : get (VObj (obj_set k v es)) k = v.
Proof. unfold get. simpl. now rewrite lookup_obj_set_eq. Qed.

Lemma get_obj_set_ne k k' v es :
  k' <> k -> get (VObj (obj_set k v es)) k' = get (VObj es) k'.
Proof. intros H. unfold get. simpl. now rewrite lookup_obj_set_ne. Qed.

Lemma mem_elem (k : string) (l : list string) : Column.mem k l = true <-> k ∈ l.
Proof.
  unfold Column.mem. induction l as [| k' l IH]; simpl.
  - split; [discriminate | intros H; now apply elem_of_nil in H].
  - rewrite elem_of_cons, orb_true_iff, IH, String.eqb_eq. reflexivity.
Qed.

Lemma distinct_NoDup (l : list string) : Column.distinct l = true -> NoDup l.
Proof.
  induction l as [| k l IH]; simpl; [constructor |].
  intros [Hk Hl]%andb_prop. apply NoDup_cons. split; [| auto].
  apply negb_true_iff in Hk. intros Hin%mem_elem. congruence.
Qed.

Lemma NoDup_distinct (l : list string) : NoDup l -> Column.distinct l = true.
Proof.
  induction 1 as [| k l Hk _ IH]; simpl; [reflexivity |].
  rewrite IH, andb_true_r. apply negb_true_iff.
  destruct (Column.mem k l) eqn:E; [| reflexivity]. now apply mem_elem in E.
Qed.

Lemma replace_key_keys k v es : (replace_key k v es).*1 = es.*1.
Proof.
  induction es as [| [k' v'] es IH]; simpl; [reflexivity |].
  destruct (k' =? k)%string; simpl; [reflexivity | f_equal; apply IH].
Qed.

Lemma insert_index_keys i k v es : (insert_index i k v es).*1 ≡ₚ k :: es.*1.
Proof.
  induction es as [| [k' v'] es IH]; simpl; [reflexivity |].
  destruct (array_index k') as [j |]; [destruct (j <? i)%nat |]; simpl;
    try reflexivity.
  rewrite IH. apply Permutation_swap.
Qed.

(** Setting a property keeps the keys of an object distinct. *)
Lemma obj_set_NoDup k v es : NoDup es.*1 -> NoDup (obj_set k v es).*1.
Proof.
  intros Hnd. unfold obj_set. destruct (has_key k es) eqn:E.
  - now rewrite replace_key_keys.
  - apply has_key_false, lookup_key_None in E.
    assert (Hk : NoDup (k :: es.*1)) by now apply NoDup_cons.
    destruct (array_index k).
    + now rewrite insert_index_keys.
    + rewrite fmap_app. simpl.
      now rewrite <- (Permutation_cons_append es.*1 k).
Qed.

Lemma elem_of_replace_key k v es e :
  e ∈ replace_key k v es -> e = (k, v) \/ e ∈ es.
Proof.
  induction es as [| [k' v'] es IH]; simpl; [auto |].
  destruct (String.eqb_spec k' k) as [-> | Hne];
    intros [-> | H]%elem_of_cons; auto.
  - right. now right.
  - right. left.
  - destruct (IH H); auto. right. now right.
Qed.

Lemma elem_of_insert_index i k v es e :
  e ∈ insert_index i k v es -> e = (k, v) \/ e ∈ es.
Proof.
  induction es as [| [k' v'] es IH]; simpl.
  - intros [-> | H]%elem_of_cons; auto.
  - destruct (array_index k') as [j |]; [destruct (j <? i)%nat |];
      intros [-> | H]%elem_of_cons; auto.
    + right. left.
    + destruct (IH H); auto. right. now right.
Qed.

(** Setting a property adds no other entry. *)
Lemma elem_of_obj_set k v es e :
  e ∈ obj_set k v es -> e = (k, v) \/ e ∈ es.
Proof.
  unfold obj_set. destruct (has_key k es).
  - apply elem_of_replace_key.
  - destruct (array_index k).
    + apply elem_of_insert_index.
    + intros [H | H%list_elem_of_singleton]%elem_of_app; auto.
Qed.

End Properties.

(** ** [setColumnOption] *)

Section SetColumnOption.

Import FieldsEditor.

Lemma newColumn_returns (c : value) (name : string) (v : value) :
  nullish c = false -> exists es, newColumn c name v = Ok (VObj es).
Proof.
  intros Hc. unfold newColumn.
  destruct (split "." name) as [| s0 [| s1 [| s2 l]]]; run; eauto.
  destruct (s0 =? "")%string; run; rewrite ?Hc; eauto.
Qed.

Lemma findColumn_unknown (cols : list value) (c : value) :
  Forall (fun x => nullish x = false) cols ->
  nullish c = false ->
  (forall x, x ∈ cols -> strict_equal (get x "name") (get c "name") = false) ->
  findColumn cols c = Ok None.
Proof.
  intros Hcols Hc Hne. induction Hcols as [| x cols Hx _ IH]; [reflexivity |].
  simpl. run. rewrite Hx, Hc, (Hne x) by left.
  rewrite IH; [reflexivity |]. intros y Hy. apply Hne. now right.
Qed.

Lemma findColumn_insert (cols : list value) (c stored : value) (i : nat) :
  findColumn cols c = Ok (Some i) ->
  nullish stored = false ->
  strict_equal (get stored "name") (get c "name") = true ->
  findColumn (<[i := stored]> cols) c = Ok (Some i).
Proof.
  revert i. induction cols as [| x cols IH]; intros i Hf Hs Hn; [discriminate |].
  simpl in Hf. run.
  destruct (nullish x) eqn:Hx; [discriminate |].
  destruct (nullish c) eqn:Hc; [discriminate |].
  destruct (strict_equal (get x "name") (get c "name")) eqn:Hxc.
  - injection Hf as <-. simpl. run. now rewrite Hs, Hc, Hn.
  - destruct (findColumn cols c) as [[j |] | |] eqn:Hj; try discriminate.
    injection Hf as <-. simpl. run. rewrite Hx, Hc, Hxc.
    now rewrite (IH j eq_refl Hs Hn).
Qed.

Lemma findColumn_in_range (cols : list value) (c : value) (i : nat) :
  findColumn cols c = Ok (Some i) -> i < length cols.
Proof.
  revert i. induction cols as [| x cols IH]; intros i Hf; [discriminate |].
  simpl in Hf. run.
  destruct (nullish x); [discriminate |]. destruct (nullish c); [discriminate |].
  destruct (strict_equal _ _).
  - injection Hf as <-. lia.
  - destruct (findColumn cols c) as [[j |] | |]; try discriminate.
    injection Hf as <-. specialize (IH j eq_refl). lia.
Qed.

(** The search only looks at the name of its argument. *)
Lemma findColumn_same_name (cols : list value) (c c' : value) :
  nullish c = false -> nullish c' = false ->
  get c "name" = get c' "name" ->
  findColumn cols c = findColumn cols c'.
Proof.
  intros Hc Hc' Hn. induction cols as [| x cols IH]; [reflexivity |].
  simpl. run. now rewrite Hc, Hc', Hn, IH.
Qed.

(** C7: invoking the mutation entry point for a column whose name no
    working column has changes nothing and raises no error, whatever the
    option path and the value. *)
Theorem mutate_unknown_name (fuel : nat) (st : store) (c : value)
    (name : string) (v : value) :
  Forall (fun x => nullish x = false) (columns st) ->
  nullish c = false ->
  (forall x, x ∈ columns st -> strict_equal (get x "name") (get c "name") = false) ->
  setColumnOption (columns st) c name v = Ok None /\
  mutate fuel st c name v = Ok st.
Proof.
  intros Hcols Hc Hne.
  assert (Hs : setColumnOption (columns st) c name v = Ok None).
  { unfold setColumnOption. destruct (newColumn_returns c name v Hc) as [es ->].
    run. now rewrite findColumn_unknown. }
  split; [exact Hs |]. unfold mutate. now rewrite Hs.
Qed.

Lemma mutate_unknown_name_witness :
  let st := Store [Samples.id; Samples.email] Samples.id in
  setColumnOption (columns st) Samples.title "baseOptions.required" (VBool true)
    = Ok None /\
  mutate 0 st Samples.title "baseOptions.required" (VBool true) = Ok st.
Proof.
  apply (mutate_unknown_name 0 (Store [Samples.id; Samples.email] Samples.id)).
  - repeat constructor.
  - reflexivity.
  - intros x Hx. simpl in Hx.
    apply elem_of_cons in Hx as [-> | Hx]; [reflexivity |].
    apply elem_of_cons in Hx as [-> | Hx]; [reflexivity |].
    now apply elem_of_nil in Hx.
Defined.

(** The option written by [setColumnOption] reads back. *)
Lemma newColumn_optionAt (c c' : value) (path : string) (v : value) :
  newColumn c path v = Ok c' -> Column.optionAt c' path = v.
Proof.
  unfold newColumn, Column.optionAt.
  destruct (split "." path) as [| s0 [| s1 [| s2 l]]]; run;
    try (intros [= <-]; apply get_obj_set_eq).
  destruct (s0 =? "")%string; run.
  - intros [= <-]. apply get_obj_set_eq.
  - destruct (nullish c); [discriminate |]. intros [= <-].
    rewrite get_obj_set_eq. apply get_obj_set_eq.
Qed.

(** Everything else is copied from the argument. *)
Lemma newColumn_copy_but (c c' : value) (path : string) (v : value) :
  newColumn c path v = Ok c' -> Column.copy_but path c c'.
Proof.
  unfold newColumn, Column.copy_but, Column.same_but.
  destruct (split "." path) as [| s0 [| s1 [| s2 l]]]; run;
    try (intros [= <-] k' Hk'; simpl; now apply lookup_obj_set_ne).
  destruct (s0 =? "")%string; run.
  - intros [= <-] k' Hk'. simpl. now apply lookup_obj_set_ne.
  - destruct (nullish c); [discriminate |]. intros [= <-]. split.
    + intros k' Hk'. simpl. now apply lookup_obj_set_ne.
    + intros k' Hk'. rewrite get_obj_set_eq. simpl. now apply lookup_obj_set_ne.
Qed.

(** C8 as the code has it: for every column and every option path, known
    to the data model or not, the transform does not fail; it returns a copy
    of the column in which the addressed option holds the value: the option
    reads back, and every other field of the column, and every other option
    of the addressed namespace, is that of the column. *)
Theorem newColumn_any_path (c : value) (path : string) (v : value) :
  nullish c = false ->
  exists c',
    newColumn c path v = Ok c' /\
    Column.optionAt c' path = v /\
    Column.copy_but path c c'.
Proof.
  intros Hc. destruct (newColumn_returns c path v Hc) as [es Hes].
  exists (VObj es). split; [exact Hes |]. split.
  - now apply (newColumn_optionAt c).
  - now apply (newColumn_copy_but c _ path v).
Qed.

Lemma newColumn_any_path_witness :
  exists c',
    newColumn Samples.email "baseOptions.colour" (VStr "red") = Ok c' /\
    Column.optionAt c' "baseOptions.colour" = VStr "red" /\
    Column.copy_but "baseOptions.colour" Samples.email c'.
Proof. apply (newColumn_any_path Samples.email). reflexivity. Defined.

(** C8 as stated fails: a path outside the data model is applied, no error
    is raised. *)
Lemma newColumn_unknown_path_applied :
  Column.known_field "baseOptions.colour" = false /\
  Column.known_field "nonsense" = false /\
  newColumn Samples.title "baseOptions.colour" (VStr "red") =
    Ok (VObj [("name", VStr "title");
              ("fieldType", VStr "Text");
              ("baseOptions",
                VObj [("required", VBool false);
                      ("nullable", VBool false);
                      ("nullValues", VArr []);
                      ("visibility", Samples.views);
                      ("colour", VStr "red")]);
              ("fieldOptions", VObj []);
              ("dataSourceInfo", VObj [("nullable", VBool true)])]) /\
  (exists c', newColumn Samples.title "nonsense" (VNum 1) = Ok c' /\
              get c' "nonsense" = VNum 1).
Proof.
  split; [reflexivity |]. split; [reflexivity |]. split; [reflexivity |].
  eexists. split; reflexivity.
Qed.



End SetColumnOption.

(** ** The effects of the column editor *)

Section Effects.

Import FieldsEditor.

Lemma is_column_inv (c : value) :
  Column.is_column c = true ->
  exists es nm bo,
    c = VObj es /\ get c "name" = VStr nm /\ get c "baseOptions" = VObj bo /\
    Column.is_flag (Column.baseOption c "required") = true /\
    Column.is_flag (Column.baseOption c "nullable") = true.
Proof.
  unfold Column.is_column, Column.baseOption. destruct c as [| | | | | |es]; try discriminate.
  destruct (get (VObj es) "name") as [| | | |nm| |]; try discriminate.
  destruct (get (VObj es) "baseOptions") as [| | | | | |bo]; try discriminate.
  intros [H1 H2]%andb_prop. now exists es, nm, bo.
Qed.

Lemma strict_equal_flag (v : value) :
  Column.is_flag v = true -> strict_equal v v = true.
Proof. destruct v as [| |[]| | | |]; try discriminate; reflexivity. Qed.

(** What [setColumnOption] builds for an option of [baseOptions]. *)
Lemma newColumn_baseOption (c : value) (name X : string) (v : value) :
  Column.is_column c = true ->
  split "." name = ["baseOptions"; X] ->
  exists c1,
    newColumn c name v = Ok c1 /\
    get c1 "name" = get c "name" /\
    Column.baseOption c1 X = v /\
    (forall Y, Y <> X -> Column.baseOption c1 Y = Column.baseOption c Y) /\
    (exists es, c1 = VObj es) /\
    (exists bo, get c1 "baseOptions" = VObj bo).
Proof.
  intros (es & nm & bo & -> & Hnm & Hbo & _)%is_column_inv Hsplit.
  unfold newColumn. rewrite Hsplit. run. rewrite Hbo. simpl.
  eexists. split; [reflexivity |]. unfold Column.baseOption.
  rewrite get_obj_set_ne by discriminate. rewrite !get_obj_set_eq.
  split; [reflexivity |]. split; [reflexivity |].
  split; [| eauto]. intros Y HY. rewrite Hbo. now apply get_obj_set_ne.
Qed.

Lemma setColumnOption_found (cols : list value) (c c1 : value)
    (name : string) (v : value) (i : nat) :
  newColumn c name v = Ok c1 ->
  findColumn cols c = Ok (Some i) ->
  setColumnOption cols c name v = Ok (Some (Store (<[i := c1]> cols) c1)).
Proof. intros Hn Hf. unfold setColumnOption. rewrite Hn. run. now rewrite Hf. Qed.

Lemma findColumn_elem (cols : list value) (c : value) :
  c ∈ cols ->
  Forall (fun x => nullish x = false) cols ->
  strict_equal (get c "name") (get c "name") = true ->
  exists i, findColumn cols c = Ok (Some i).
Proof.
  intros Hin Hcols Hrefl.
  assert (Hc : nullish c = false).
  { rewrite Forall_forall in Hcols. now apply Hcols. }
  induction Hcols as [| x cols Hx _ IH]; [now apply elem_of_nil in Hin |].
  simpl. run. rewrite Hx, Hc.
  destruct (strict_equal (get x "name") (get c "name")) eqn:E; [now exists 0 |].
  apply elem_of_cons in Hin as [-> | Hin]; [congruence |].
  destruct (IH Hin) as [i ->]. now exists (S i).
Qed.

(** The effects that run after rendering a column whose [baseOptions] is an
    object. *)
Lemma effects_rendered (prev : option (value * value)) (c : value) :
  (exists bo, get c "baseOptions" = VObj bo) ->
  let r := Column.baseOption c "required" in
  let n := Column.baseOption c "nullable" in
  let changed (old new : value) :=
    match prev with Some _ => negb (strict_equal old new) | None => true end in
  ColumnEditor.effects prev c =
    Ok ((r, n),
        (if changed (default VUndef (fst <$> prev)) r
         then if truthy r then [(c, "baseOptions.nullable", VBool false)] else []
         else []) ++
        (if changed (default VUndef (snd <$> prev)) n
         then if truthy n
              then (c, "baseOptions.required", VBool false) ::
                   (if Lodash.isEmpty (Column.baseOption c "nullValues")
                    then [(c, "baseOptions.nullValues", VArr [VStr ""])]
                    else [])
              else []
         else [])).
Proof.
  intros [bo Hbo]. unfold ColumnEditor.effects, ColumnEditor.deps,
    ColumnEditor.requiredEffect, ColumnEditor.nullableEffect, Column.baseOption.
  rewrite Hbo. run.
  destruct prev as [[r0 n0] |]; simpl.
  - destruct (strict_equal r0 _); simpl;
      [| destruct (truthy (get (VObj bo) "required"))];
      (destruct (strict_equal n0 _); simpl;
       [| destruct (truthy (get (VObj bo) "nullable"))]); reflexivity.
  - destruct (truthy (get (VObj bo) "required"));
      destruct (truthy (get (VObj bo) "nullable")); reflexivity.
Qed.

Lemma lastDeps_rendered (st : store) (bo : entries) :
  truthy (column st) = true ->
  get (column st) "baseOptions" = VObj bo ->
  lastDeps st = Ok (Some (Column.baseOption (column st) "required",
                          Column.baseOption (column st) "nullable")).
Proof.
  intros Ht Hbo. unfold lastDeps, ColumnEditor.deps, Column.baseOption.
  rewrite Ht, Hbo. reflexivity.
Qed.



(** The second rule on a column that is not required: making it nullable
    initialises an empty [nullValues] to the empty string and leaves
    [required] as it was. *)
Lemma nullable_initialises_nullValues (fuel : nat) (st : store) (c : value) :
  2 <= fuel ->
  column st = c ->
  c ∈ columns st ->
  Forall (fun x => nullish x = false) (columns st) ->
  Column.is_column c = true ->
  Column.baseOption c "required" = VBool false ->
  Column.baseOption c "nullable" <> VBool true ->
  Column.baseOption c "nullValues" = VArr [] ->
  exists st' i c',
    mutate fuel st c "baseOptions.nullable" (VBool true) = Ok st' /\
    findColumn (columns st') c = Ok (Some i) /\
    columns st' !! i = Some c' /\
    Column.baseOption c' "required" = VBool false /\
    Column.baseOption c' "nullable" = VBool true /\
    Column.baseOption c' "nullValues" = VArr [VStr ""].
Proof.
  intros Hfuel Hcol Hin Hcols Hic Hreq Hnul Hnv.
  destruct (is_column_inv c Hic) as (es & nm & bo & Hc & Hnm & Hbo & Hr & Hn).
  assert (Hnc : nullish c = false) by now rewrite Hc.
  assert (Hrefl : strict_equal (get c "name") (get c "name") = true).
  { rewrite Hnm. simpl. apply String.eqb_refl. }
  destruct (findColumn_elem _ c Hin Hcols Hrefl) as [i Hi].
  pose proof (findColumn_in_range _ _ _ Hi) as Hlt.
  destruct (newColumn_baseOption c "baseOptions.nullable" "nullable"
              (VBool true) Hic eq_refl)
    as (c1 & Hnew1 & Hname1 & Hnul1 & Hoth1 & [es1 Hes1] & Hbo1).
  assert (Hnc1 : nullish c1 = false) by now rewrite Hes1.
  assert (Hi1 : findColumn (<[i := c1]> (columns st)) c1 = Ok (Some i)).
  { rewrite <- (findColumn_same_name _ c c1) by congruence.
    apply findColumn_insert; congruence. }
  assert (Hic1 : Column.is_column c1 = true).
  { destruct Hbo1 as [bo1 Hbo1]. unfold Column.is_column. rewrite Hes1 in *.
    rewrite Hname1, Hnm, Hbo1.
    unfold Column.baseOption in Hnul1, Hoth1. rewrite Hbo1 in Hnul1, Hoth1.
    rewrite Hnul1, (Hoth1 "required") by discriminate.
    apply andb_true_intro. split; [exact Hr | reflexivity]. }
  destruct (newColumn_baseOption c1 "baseOptions.required" "required"
              (VBool false) Hic1 eq_refl) as (c2 & Hnew2 & _).
  destruct (newColumn_baseOption c1 "baseOptions.nullValues" "nullValues"
              (VArr [VStr ""]) Hic1 eq_refl)
    as (c3 & Hnew3 & Hname3 & Hnv3 & Hoth3 & [es3 Hes3] & Hbo3).
  unfold mutate.
  rewrite (setColumnOption_found _ c c1 _ _ i Hnew1 Hi). run.
  rewrite (lastDeps_rendered st bo);
    [| rewrite Hcol, Hc; reflexivity | rewrite Hcol; exact Hbo]. run.
  rewrite Hcol.
  destruct fuel as [| [| fuel]]; try lia. simpl settle.
  replace (truthy c1) with true by now rewrite Hes1.
  rewrite (effects_rendered _ c1 Hbo1). run.
  rewrite Hnul1, !Hoth1 by discriminate.
  rewrite (strict_equal_flag _ Hr), Hnv. simpl.
  replace (strict_equal (Column.baseOption c "nullable") (VBool true)) with false
    by (destruct (Column.baseOption c "nullable") as [| |[]| | | |];
        try reflexivity; now contradict Hnul).
  simpl.
  rewrite (setColumnOption_found _ c1 c2 _ _ i Hnew2 Hi1). run.
  rewrite (setColumnOption_found _ c1 c3 _ _ i Hnew3 Hi1). run.
  replace (truthy c3) with true by now rewrite Hes3.
  rewrite (effects_rendered _ c3 Hbo3). run.
  rewrite !Hoth3, Hnul1, !Hoth1 by discriminate.
  rewrite (strict_equal_flag _ Hr). simpl.
  rewrite list_insert_insert_eq.
  exists (Store (<[i := c3]> (columns st)) c3), i, c3.
  split; [reflexivity |]. simpl.
  split.
  { apply findColumn_insert; [exact Hi | now rewrite Hes3 |].
    rewrite Hname3, Hname1. exact Hrefl. }
  split; [now apply list_lookup_insert_eq |].
  rewrite !Hoth3, !Hoth1, Hnul1 by discriminate. auto.
Qed.


(** Outside the data model, on a column that is already required and
    nullable, setting [required] to [true] again changes no dependency: no
    effect runs, and the column stays as it is. The page makes no such call:
    its checkbox negates [required]. *)
Lemma required_again_stays_nullable :
  let st := Store [Samples.id; Samples.both] Samples.both in
  Samples.both ∈ columns st /\
  mutate 8 st Samples.both "baseOptions.required" (VBool true) = Ok st /\
  findColumn (columns st) Samples.both = Ok (Some 1) /\
  columns st !! 1 = Some Samples.both /\
  Column.baseOption Samples.both "nullable" = VBool true.
Proof.
  repeat split; try reflexivity. simpl. right. left.
Qed.

(** C2 fails on a required column without null values. The second effect
    calls [setColumnOption] twice with the column of its render: the second
    call, which sets [nullValues], starts again from that column and so
    undoes the first, which had cleared [required]. The page comes to rest
    with a column that is required and nullable. *)
Lemma nullable_leaves_required :
  Column.baseOption Samples.email "nullValues" = VArr [] /\
  (st0 ← mount 8 [Samples.id; Samples.email];
   st1 ← select 8 st0 Samples.email;
   mutate 8 st1 Samples.email "baseOptions.nullable" (VBool true))
  = Ok (Store [Samples.id; Samples.both] Samples.both) /\
  Column.baseOption Samples.both "nullValues" = VArr [VStr ""] /\
  Column.baseOption Samples.both "required" = VBool true.
Proof. repeat split; reflexivity. Qed.

End Effects.

(** ** The change-set *)

Section Changes.

Import FieldsEditor.

Lemma array_index_Some (k : string) (j : nat) :
  array_index k = Some j -> k = index_key j.
Proof.
  unfold array_index. destruct (NilEmpty.uint_of_string k) as [u |]; [| discriminate].
  cbv zeta. destruct (String.eqb_spec (index_key (Nat.of_uint u)) k); [| discriminate].
  now intros [= <-].
Qed.

Lemma is_record_inv (c : value) :
  Column.is_record c = true ->
  truthy c = true /\ exists bo, get c "baseOptions" = VObj bo.
Proof.
  unfold Column.is_record. destruct c as [| | | | | |es]; try discriminate.
  destruct (get (VObj es) "baseOptions") as [| | | | | |bo]; try discriminate.
  eauto.
Qed.

Lemma addresses_inv (ws : list value) (e : string * value) :
  Column.addresses ws e = true ->
  exists j c, e.1 = index_key j /\ ws !! j = Some c /\
              Column.is_record c = true /\ nullish e.2 = false.
Proof.
  unfold Column.addresses. destruct (array_index e.1) as [j |] eqn:Hj; [| discriminate].
  destruct (ws !! j) as [c |] eqn:Hc0; [| discriminate].
  intros [Hc Hx%negb_true_iff]%andb_prop. apply array_index_Some in Hj.
  now exists j, c.
Qed.

(** The patch of a column: what it keeps of the delta and what it forces. *)
Lemma changesObject_record (c delta : value) :
  Column.is_record c = true -> nullish delta = false ->
  exists co,
    changesObject c delta = Ok co /\
    get (get co "baseOptions") "visibility" = Column.baseOption c "visibility" /\
    get co "fieldOptions" = VObj (own_entries (get delta "fieldOptions")) /\
    (forall k, k <> "visibility" ->
       get (get co "baseOptions") k = get (VObj (own_entries (get delta "baseOptions"))) k) /\
    (forall k, k <> "baseOptions" -> k <> "fieldOptions" ->
       get co k = get (VObj (own_entries delta)) k).
Proof.
  intros [_ [bo Hbo]]%is_record_inv Hd. unfold changesObject, Column.baseOption.
  run. rewrite Hd, Hbo. simpl. eexists. split; [reflexivity |].
  rewrite get_obj_set_eq. rewrite get_obj_set_ne by discriminate.
  rewrite !get_obj_set_eq. repeat split.
  - intros k Hk. now apply get_obj_set_ne.
  - intros k Hk1 Hk2. now rewrite !get_obj_set_ne.
Qed.

Lemma changesEntry_addressed (ws : list value) (e : string * value) :
  Column.addresses ws e = true ->
  exists j c co,
    e.1 = index_key j /\ ws !! j = Some c /\
    changesObject c e.2 = Ok co /\
    changesEntry ws e = Ok (get c "name", co).
Proof.
  intros (j & c & Hk & Hj & Hc & Hx)%addresses_inv.
  destruct (changesObject_record c e.2 Hc Hx) as (co & Hco & _).
  exists j, c, co. repeat split; auto.
  destruct e as [k x]. simpl in *. subst k. unfold changesEntry.
  rewrite at_number_index_key, Hj. simpl.
  apply is_record_inv in Hc as [-> _]. simpl. run. now rewrite Hco.
Qed.

(** The entries built for a diff all of whose entries address a column. *)
Lemma mapM_changesEntry (ws : list value) (es : entries) :
  Forall (fun e => Column.addresses ws e = true) es ->
  exists l,
    mapM (changesEntry ws) es = Ok l /\
    Forall2 (fun e r => exists j c co,
               e.1 = index_key j /\ ws !! j = Some c /\
               changesObject c e.2 = Ok co /\ r = (get c "name", co)) es l.
Proof.
  induction 1 as [| e es He _ (l & Hl & IH)].
  - exists []. split; [reflexivity | constructor].
  - destruct (changesEntry_addressed ws e He) as (j & c & co & Hk & Hj & Hco & Hce).
    exists ((get c "name", co) :: l). split.
    + simpl. run. now rewrite Hce, Hl.
    + constructor; [| exact IH]. now exists j, c, co.
Qed.

(** In [Object.fromEntries] the last entry of a key wins. *)
Lemma fromEntries_last (l1 l2 : list (value * value)) (e : value * value) :
  Forall (fun r => to_string r.1 <> to_string e.1) l2 ->
  exists cs, fromEntries (l1 ++ e :: l2) = VObj cs /\
             lookup_key (to_string e.1) cs = Some e.2.
Proof.
  intros Hl2. unfold fromEntries. eexists. split; [reflexivity |].
  rewrite fold_left_app. simpl.
  generalize (fold_left (fun acc e0 => obj_set (to_string e0.1) e0.2 acc) l1 []).
  intros acc.
  assert (Hk : lookup_key (to_string e.1) (obj_set (to_string e.1) e.2 acc) = Some e.2)
    by apply lookup_obj_set_eq.
  revert Hk. generalize (obj_set (to_string e.1) e.2 acc). clear acc.
  induction Hl2 as [| r l2 Hr _ IH]; intros acc Hk; simpl; [exact Hk |].
  apply IH. rewrite lookup_obj_set_ne; [exact Hk |]. now apply not_eq_sym.
Qed.

(** The entry of the change-set for one entry of the diff, when every
    entry of the diff addresses a column and column names are distinct. *)
Lemma changes_entry (d : value) (ws : list value) (k : string) (delta : value) :
  nullish d = false ->
  Column.distinct (own_entries d).*1 = true ->
  Forall (fun e => Column.addresses ws e = true) (own_entries d) ->
  Column.distinct (Column.names ws) = true ->
  (k, delta) ∈ own_entries d ->
  exists cs j c co,
    changes d ws = Ok (VObj cs) /\
    k = index_key j /\ ws !! j = Some c /\
    changesObject c delta = Ok co /\
    lookup_key (to_string (get c "name")) cs = Some co.
Proof.
  intros Hd Hnd%distinct_NoDup Hall Hnames%distinct_NoDup Hin.
  destruct (list_elem_of_split _ _ Hin) as (es1 & es2 & Hes).
  destruct (mapM_changesEntry ws _ Hall) as (l & Hl & HF).
  unfold changes, Object_entries. rewrite Hd. run. rewrite Hl.
  rewrite Hes in HF, Hnd.
  apply Forall2_app_inv_l in HF as (l1 & l2' & _ & HF2 & ->).
  apply Forall2_cons_inv_l in HF2 as (r & l2 & (j & c & co & Hk & Hj & Hco & ->) & HF2 & ->).
  simpl in Hk, Hco. subst k.
  rewrite fmap_app, fmap_cons in Hnd. apply NoDup_app in Hnd as (_ & _ & Hnd).
  apply NoDup_cons in Hnd as [Hk _]. simpl in Hk.
  destruct (fromEntries_last l1 l2 (get c "name", co)) as (cs & Hcs & Hlook).
  { clear -HF2 Hk Hj Hnames.
    induction HF2 as [| e r es2 l2 (j' & c' & co' & Hk' & Hj' & _ & ->) _ IH];
      constructor.
    - simpl. intros Hn. apply Hk. rewrite fmap_cons. apply elem_of_cons. left.
      rewrite Hk'. f_equal.
      apply (NoDup_lookup (Column.names ws) j j' (to_string (get c "name")) Hnames).
      + unfold Column.names. now rewrite list_lookup_fmap, Hj.
      + unfold Column.names. rewrite list_lookup_fmap, Hj'. simpl. now f_equal.
    - apply IH. intros Hin. apply Hk. rewrite fmap_cons. apply elem_of_cons.
      now right. }
  exists cs, j, c, co. rewrite Hcs. auto.
Qed.

(** C6: for every entry of the diff, the entry of the change-set for the
    column it addresses carries the complete current
    [baseOptions.visibility] of that working column, whether or not the
    delta mentions visibility. *)
Theorem changes_force_visibility (d : value) (ws : list value)
    (j : nat) (c delta : value) :
  nullish d = false ->
  Column.distinct (own_entries d).*1 = true ->
  Forall (fun e => Column.addresses ws e = true) (own_entries d) ->
  Column.distinct (Column.names ws) = true ->
  (index_key j, delta) ∈ own_entries d ->
  ws !! j = Some c ->
  exists cs patch,
    changes d ws = Ok cs /\
    get cs (to_string (get c "name")) = patch /\
    get (get patch "baseOptions") "visibility" = Column.baseOption c "visibility".
Proof.
  intros Hd Hnd Hall Hnames Hin Hj.
  destruct (changes_entry d ws _ delta Hd Hnd Hall Hnames Hin)
    as (cs & j' & c' & co & Hcs & Hk & Hj' & Hco & Hlook).
  apply index_key_inj in Hk as <-. rewrite Hj in Hj'. injection Hj' as <-.
  exists (VObj cs), co. split; [exact Hcs |].
  split; [now apply get_lookup |].
  rewrite Forall_forall in Hall.
  destruct (addresses_inv ws _ (Hall _ Hin)) as (j' & c' & Hk & Hj' & Hc & Hx).
  simpl in Hk, Hx. apply index_key_inj in Hk as <-.
  rewrite Hj in Hj'. injection Hj' as <-.
  destruct (changesObject_record c delta Hc Hx) as (co' & Hco' & Hvis & _).
  congruence.
Qed.

(** C4 as the code has it: the entry of the change-set for a column
    carries, as [fieldOptions], a copy of the [fieldOptions] of the
    column's delta, that is, the changed field options only (none when the
    delta has no [fieldOptions]). *)
Theorem changes_copy_fieldOptions (d : value) (ws : list value)
    (j : nat) (c delta : value) :
  nullish d = false ->
  Column.distinct (own_entries d).*1 = true ->
  Forall (fun e => Column.addresses ws e = true) (own_entries d) ->
  Column.distinct (Column.names ws) = true ->
  (index_key j, delta) ∈ own_entries d ->
  ws !! j = Some c ->
  exists cs patch,
    changes d ws = Ok cs /\
    get cs (to_string (get c "name")) = patch /\
    get patch "fieldOptions" = VObj (own_entries (get delta "fieldOptions")).
Proof.
  intros Hd Hnd Hall Hnames Hin Hj.
  destruct (changes_entry d ws _ delta Hd Hnd Hall Hnames Hin)
    as (cs & j' & c' & co & Hcs & Hk & Hj' & Hco & Hlook).
  apply index_key_inj in Hk as <-. rewrite Hj in Hj'. injection Hj' as <-.
  exists (VObj cs), co. split; [exact Hcs |].
  split; [now apply get_lookup |].
  rewrite Forall_forall in Hall.
  destruct (addresses_inv ws _ (Hall _ Hin)) as (j' & c' & Hk & Hj' & Hc & Hx).
  simpl in Hk, Hx. apply index_key_inj in Hk as <-.
  rewrite Hj in Hj'. injection Hj' as <-.
  destruct (changesObject_record c delta Hc Hx) as (co' & Hco' & _ & Hfo & _).
  congruence.
Qed.

End Changes.

(** ** The structural difference *)

Section Difference.

Import DeepObjectDiff.

Lemma lookup_indexed (xs : list value) (k j : nat) :
  lookup_key (index_key (k + j)) (indexed k xs) = xs !! j.
Proof.
  revert k j. induction xs as [| x xs IH]; intros k j; [reflexivity |].
  simpl. destruct j as [| j].
  - now rewrite Nat.add_0_r, String.eqb_refl.
  - destruct (String.eqb_spec (index_key k) (index_key (k + S j))) as [E | _].
    + apply index_key_inj in E. lia.
    + replace (k + S j) with (S k + j) by lia. apply IH.
Qed.

Lemma lookup_items (xs : list value) (j : nat) :
  lookup_key (index_key j) (indexed 0 xs) = xs !! j.
Proof. exact (lookup_indexed xs 0 j). Qed.

Lemma index_key_not_length (j : nat) : index_key j <> "length".
Proof.
  intros E. pose proof (parseInt_index_key j) as H. rewrite E in H. discriminate H.
Qed.

Lemma has_own_item (xs : list value) (j : nat) :
  has_own (VArr xs) (index_key j) = bool_decide (j < length xs).
Proof.
  unfold has_own. simpl. rewrite lookup_items.
  destruct (xs !! j) as [x |] eqn:E.
  - apply lookup_lt_Some in E. now rewrite bool_decide_eq_true_2.
  - apply lookup_ge_None in E. rewrite bool_decide_eq_false_2 by lia.
    apply String.eqb_neq, index_key_not_length.
Qed.

Lemma get_item (xs : list value) (j : nat) (x : value) :
  xs !! j = Some x -> get (VArr xs) (index_key j) = x.
Proof. intros E. unfold get. simpl. now rewrite lookup_items, E. Qed.

Lemma reduce_items_app (rec : value -> value -> value) (l : value)
    (k : nat) (xs ys : list value) (acc : entries) :
  reduce_items rec l k (xs ++ ys) acc =
  reduce_items rec l (k + length xs) ys (reduce_items rec l k xs acc).
Proof.
  revert k acc. induction xs as [| x xs IH]; intros k acc; simpl.
  - now rewrite Nat.add_0_r.
  - rewrite IH. f_equal. lia.
Qed.

(** Positions without a difference leave the accumulator alone. *)
Lemma reduce_items_skip (rec : value -> value -> value) (l : value)
    (k : nat) (xs : list value) (acc : entries) :
  (forall j x, xs !! j = Some x ->
     has_own l (index_key (k + j)) = true /\
     Column.is_delta (rec (get l (index_key (k + j))) x) = false) ->
  reduce_items rec l k xs acc = acc.
Proof.
  revert k acc. induction xs as [| x xs IH]; intros k acc H; [reflexivity |].
  simpl. destruct (H 0 x eq_refl) as [Ho Hd]. rewrite Nat.add_0_r in Ho, Hd.
  unfold updated. rewrite Ho. unfold Column.is_delta in Hd.
  apply negb_false_iff in Hd. rewrite Hd. simpl.
  apply IH. intros j y Hj. replace (S k + j) with (k + S j) by lia.
  now apply (H (S j) y).
Qed.

Lemma deletedValues_covered (l r : value) :
  Forall (fun e => has_own r e.1 = true) (own_entries l) ->
  deletedValues l r = [].
Proof.
  intros H. unfold deletedValues. generalize (@nil (string * value)).
  induction H as [| e es He _ IH]; intros acc; simpl; [reflexivity |].
  rewrite He. apply IH.
Qed.

Lemma indexed_covered (b w : list value) (k : nat) :
  k + length b <= length w ->
  Forall (fun e => has_own (VArr w) e.1 = true) (indexed k b).
Proof.
  revert k. induction b as [| x b IH]; intros k Hk; simpl in *; constructor.
  - simpl. rewrite has_own_item. apply bool_decide_eq_true_2. lia.
  - apply IH. lia.
Qed.

Lemma reduce_props_skip (rec : value -> value -> value) (l : value)
    (es : entries) (acc : entries) :
  Forall (fun e => has_own l e.1 = true /\
                   Column.is_delta (rec (get l e.1) e.2) = false) es ->
  reduce_props rec l es acc = acc.
Proof.
  induction 1 as [| e es [Ho Hd] _ IH]; [reflexivity |].
  simpl. unfold updated. rewrite Ho. unfold Column.is_delta in Hd.
  apply negb_false_iff in Hd. now rewrite Hd.
Qed.

Lemma diff_arrays (b w : list value) :
  diff (VArr b) (VArr w) =
  VObj (reduce_items diff (VArr b) 0 w (deletedValues (VArr b) (VArr w))).
Proof. reflexivity. Qed.

Lemma diff_objects (l r : entries) :
  diff (VObj l) (VObj r) =
  VObj (reduce_props diff (VObj l) r (deletedValues (VObj l) (VObj r))).
Proof. reflexivity. Qed.

Lemma well_formed_items (xs : list value) :
  Column.well_formed (VArr xs) = true <->
  Forall (fun x => Column.well_formed x = true) xs.
Proof.
  simpl. induction xs as [| x xs IH].
  - split; [constructor | trivial].
  - rewrite Forall_cons, <- IH, andb_true_iff. reflexivity.
Qed.

Lemma well_formed_props (es : entries) :
  Column.well_formed (VObj es) = true <->
  Column.distinct es.*1 = true /\
  Forall (fun e => Column.well_formed e.2 = true) es.
Proof.
  simpl. rewrite andb_true_iff. apply and_iff_compat_l.
  induction es as [| e es IH].
  - split; [constructor | trivial].
  - rewrite Forall_cons, <- IH, andb_true_iff. reflexivity.
Qed.

(** A value has no difference with itself. *)
Lemma diff_same (v : value) : Column.well_formed v = true -> diff v v = VObj [].
Proof.
  induction v as [| | b | z | s | xs IH | es IH] using value_ind; intros Hwf.
  - reflexivity.
  - reflexivity.
  - simpl. now rewrite eqb_reflx.
  - simpl. now rewrite Z.eqb_refl.
  - simpl. now rewrite String.eqb_refl.
  - rewrite diff_arrays. f_equal.
    rewrite deletedValues_covered by (apply indexed_covered; simpl; lia).
    apply reduce_items_skip. intros j x Hj. simpl.
    rewrite has_own_item, (get_item xs j x Hj).
    split; [apply bool_decide_eq_true_2; now apply lookup_lt_Some in Hj |].
    apply well_formed_items in Hwf.
    rewrite Forall_forall in IH, Hwf. apply list_elem_of_lookup_2 in Hj.
    now rewrite (IH x Hj (Hwf x Hj)).
  - rewrite diff_objects. f_equal.
    apply well_formed_props in Hwf as [Hnd%distinct_NoDup Hwf].
    assert (Hown : forall e, e ∈ es -> lookup_key e.1 es = Some e.2).
    { intros [k x] He. now apply lookup_key_NoDup. }
    rewrite deletedValues_covered.
    + apply reduce_props_skip. rewrite Forall_forall in IH, Hwf |- *.
      intros e He. unfold has_own, get. simpl. rewrite (Hown e He).
      split; [reflexivity |]. now rewrite (IH e He (Hwf e He)).
    + simpl. rewrite Forall_forall. intros e He. unfold has_own. simpl.
      now rewrite (Hown e He).
Qed.

Lemma lookup_updated_ne (l : value) (key key' : string) (x d : value) (acc : entries) :
  key' <> key -> lookup_key key' (updated l key x d acc) = lookup_key key' acc.
Proof.
  intros Hne. unfold updated.
  destruct (negb (has_own l key)); [now apply lookup_obj_set_ne |].
  destruct (is_object d && isEmpty d); [reflexivity | now apply lookup_obj_set_ne].
Qed.

(** The reduction only writes the keys of the positions it visits. *)
Lemma reduce_items_other (rec : value -> value -> value) (l : value)
    (k : nat) (xs : list value) (acc : entries) (key : string) :
  (forall j, j < length xs -> key <> index_key (k + j)) ->
  lookup_key key (reduce_items rec l k xs acc) = lookup_key key acc.
Proof.
  revert k acc. induction xs as [| x xs IH]; intros k acc H; [reflexivity |].
  simpl. rewrite IH.
  - apply lookup_updated_ne. specialize (H 0). rewrite Nat.add_0_r in H.
    apply H. simpl. lia.
  - intros j Hj. replace (S k + j) with (k + S j) by lia. apply H. simpl. lia.
Qed.

(** A position that only the right-hand side has is reported whole. *)
Lemma reduce_items_added (rec : value -> value -> value) (l : value)
    (k : nat) (xs : list value) (acc : entries) (j : nat) (x : value) :
  xs !! j = Some x ->
  has_own l (index_key (k + j)) = false ->
  lookup_key (index_key (k + j)) (reduce_items rec l k xs acc) = Some x.
Proof.
  revert k acc j. induction xs as [| y xs IH]; intros k acc j Hj Ho; [discriminate |].
  simpl. destruct j as [| j].
  - injection Hj as ->. rewrite Nat.add_0_r in *. rewrite reduce_items_other.
    + unfold updated. rewrite Ho. apply lookup_obj_set_eq.
    + intros j _ E. apply index_key_inj in E. lia.
  - replace (k + S j) with (S k + j) in * by lia. now apply IH.
Qed.

Lemma deleted_other (r : value) (es : entries) (acc : entries) (key : string) :
  key ∉ es.*1 ->
  lookup_key key
    (fold_left (fun acc e => if has_own r e.1 then acc else obj_set e.1 VUndef acc)
       es acc) = lookup_key key acc.
Proof.
  revert acc. induction es as [| e es IH]; intros acc Hk; [reflexivity |].
  rewrite fmap_cons in Hk. apply not_elem_of_cons in Hk as [Hne Hk].
  simpl. rewrite IH by exact Hk.
  destruct (has_own r e.1); [reflexivity | now apply lookup_obj_set_ne].
Qed.

Lemma indexed_keys (k : nat) (xs : list value) (key : string) :
  key ∈ (indexed k xs).*1 -> exists j, j < length xs /\ key = index_key (k + j).
Proof.
  revert k. induction xs as [| x xs IH]; intros k; simpl.
  - intros H. now apply elem_of_nil in H.
  - intros [-> | H]%elem_of_cons.
    + exists 0. split; [lia | now rewrite Nat.add_0_r].
    + destruct (IH _ H) as (j & Hj & ->). exists (S j). split; [lia |].
      f_equal. lia.
Qed.

(** A position that only the left-hand side has is reported as
    [undefined]. *)
Lemma deleted_removed (r : value) (k : nat) (xs : list value) (acc : entries) (j : nat) :
  j < length xs ->
  has_own r (index_key (k + j)) = false ->
  lookup_key (index_key (k + j))
    (fold_left (fun acc e => if has_own r e.1 then acc else obj_set e.1 VUndef acc)
       (indexed k xs) acc) = Some VUndef.
Proof.
  revert k acc j. induction xs as [| y xs IH]; intros k acc j Hj Ho; simpl in Hj; [lia |].
  simpl. destruct j as [| j].
  - rewrite Nat.add_0_r in *. rewrite Ho, deleted_other; [apply lookup_obj_set_eq |].
    intros (j & _ & E)%indexed_keys. apply index_key_inj in E. lia.
  - replace (k + S j) with (S k + j) in * by lia. apply IH; [lia | exact Ho].
Qed.

(** C9 as the code has it: the diff of two sequences of different length
    does not fail. It is a delta mapping in which each position that only
    the baseline has is bound to [undefined] and each position that only the
    working sequence has is bound to the whole working column; the page is
    dirty. *)
Theorem diff_of_different_lengths (b w : list value) :
  length b <> length w ->
  exists es,
    FieldsEditor.diff b w = VObj es /\
    (forall i, length w <= i < length b ->
       lookup_key (index_key i) es = Some VUndef) /\
    (forall i x, length b <= i -> w !! i = Some x ->
       lookup_key (index_key i) es = Some x) /\
    FieldsEditor.isDirty (VObj es) = true.
Proof.
  intros Hlen. unfold FieldsEditor.diff. rewrite diff_arrays.
  eexists. split; [reflexivity |].
  assert (Hrem : forall i, length w <= i < length b ->
    lookup_key (index_key i)
      (reduce_items diff (VArr b) 0 w (deletedValues (VArr b) (VArr w)))
    = Some VUndef).
  { intros i [Hi1 Hi2]. rewrite reduce_items_other.
    - apply (deleted_removed (VArr w) 0 b [] i Hi2).
      rewrite has_own_item. apply bool_decide_eq_false_2. lia.
    - intros j Hj E. apply index_key_inj in E. simpl in E. lia. }
  assert (Hadd : forall i x, length b <= i -> w !! i = Some x ->
    lookup_key (index_key i)
      (reduce_items diff (VArr b) 0 w (deletedValues (VArr b) (VArr w)))
    = Some x).
  { intros i x Hi Hx. apply (reduce_items_added diff (VArr b) 0 w _ i x Hx).
    rewrite has_own_item. apply bool_decide_eq_false_2. simpl. lia. }
  split; [exact Hrem |]. split; [exact Hadd |].
  unfold FieldsEditor.isDirty. simpl.
  destruct (reduce_items diff (VArr b) 0 w (deletedValues (VArr b) (VArr w)))
    as [| e es] eqn:E; [| reflexivity].
  exfalso. destruct (Nat.lt_ge_cases (length w) (length b)) as [Hlt | Hge].
  - specialize (Hrem (length w) (conj (Nat.le_refl _) Hlt)). discriminate Hrem.
  - assert (Hb : length b < length w) by lia.
    destruct (lookup_lt_is_Some_2 w (length b) Hb) as [x Hx].
    specialize (Hadd (length b) x (Nat.le_refl _) Hx). discriminate Hadd.
Qed.

Lemma diff_of_different_lengths_witness :
  exists es,
    FieldsEditor.diff [Samples.id; Samples.email] [Samples.id] = VObj es /\
    (forall i, length [Samples.id] <= i < length [Samples.id; Samples.email] ->
       lookup_key (index_key i) es = Some VUndef) /\
    (forall i x, length [Samples.id; Samples.email] <= i ->
       [Samples.id] !! i = Some x ->
       lookup_key (index_key i) es = Some x) /\
    FieldsEditor.isDirty (VObj es) = true.
Proof.
  apply (diff_of_different_lengths [Samples.id; Samples.email] [Samples.id]).
  simpl. lia.
Defined.

(** C9 as stated fails: for sequences of different length the diff is an
    ordinary delta mapping, not an error. *)
Lemma diff_shorter_working :
  length [Samples.id; Samples.email] <> length [Samples.id] /\
  FieldsEditor.diff [Samples.id; Samples.email] [Samples.id]
    = VObj [("1", VUndef)] /\
  FieldsEditor.diff [Samples.id] [Samples.id; Samples.email]
    = VObj [("1", Samples.email)].
Proof. split; [simpl; lia |]. split; reflexivity. Qed.

Lemma diff_of_record (l : value) (es : entries) :
  exists es', diff l (VObj es) = VObj es'.
Proof.
  destruct l; simpl; eauto.
Qed.

(** The baseline has no difference with itself: the page starts clean. *)
Lemma diff_baseline (b : list value) :
  Forall (fun x => Column.well_formed x = true) b ->
  FieldsEditor.diff b b = VObj [] /\
  FieldsEditor.isDirty (FieldsEditor.diff b b) = false.
Proof.
  intros Hwf. unfold FieldsEditor.diff.
  rewrite (diff_same (VArr b)) by now apply well_formed_items.
  split; reflexivity.
Qed.

Lemma addresses_item (w : list value) (j : nat) (x d : value) :
  w !! j = Some x -> Column.is_record x = true -> nullish d = false ->
  Column.addresses w (index_key j, d) = true.
Proof.
  intros Hj Hx Hd. unfold Column.addresses. simpl.
  now rewrite array_index_index_key, Hj, Hx, Hd.
Qed.

(** Every entry written by the reduction addresses the column it was
    computed for. *)
Lemma reduce_items_addresses (l : value) (w : list value)
    (k : nat) (xs : list value) (acc : entries) :
  (forall j x, xs !! j = Some x ->
     w !! (k + j) = Some x /\ Column.is_record x = true) ->
  NoDup acc.*1 ->
  Forall (fun e => Column.addresses w e = true) acc ->
  NoDup (reduce_items diff l k xs acc).*1 /\
  Forall (fun e => Column.addresses w e = true) (reduce_items diff l k xs acc).
Proof.
  revert k acc. induction xs as [| x xs IH]; intros k acc H Hnd Hall; [auto |].
  simpl. destruct (H 0 x eq_refl) as [Hw Hx]. rewrite Nat.add_0_r in Hw.
  assert (Hset : forall d, nullish d = false ->
    NoDup (obj_set (index_key k) d acc).*1 /\
    Forall (fun e => Column.addresses w e = true) (obj_set (index_key k) d acc)).
  { intros d Hd. split; [now apply obj_set_NoDup |].
    rewrite Forall_forall in Hall |- *.
    intros e [-> | He]%elem_of_obj_set; [now apply (addresses_item w k x) | auto]. }
  assert (Hx' : nullish x = false) by now destruct x.
  assert (Hd' : nullish (diff (get l (index_key k)) x) = false).
  { destruct x as [| | | | | |es]; try discriminate.
    now destruct (diff_of_record (get l (index_key k)) es) as [es' ->]. }
  apply IH.
  - intros j y Hj. replace (S k + j) with (k + S j) by lia. now apply (H (S j)).
  - unfold updated. destruct (negb _); [now apply Hset |].
    destruct (_ && _); [exact Hnd | now apply Hset].
  - unfold updated. destruct (negb _); [now apply Hset |].
    destruct (_ && _); [exact Hall | now apply Hset].
Qed.

(** The diff the page computes, when working is at least as long as the
    baseline and made of records, is a mapping from positions of working to
    deltas: what the theorems on [changes] ask of a diff. *)
Lemma diff_addresses_working (b w : list value) :
  length b <= length w ->
  Forall (fun c => Column.is_record c = true) w ->
  nullish (FieldsEditor.diff b w) = false /\
  Column.distinct (own_entries (FieldsEditor.diff b w)).*1 = true /\
  Forall (fun e => Column.addresses w e = true) (own_entries (FieldsEditor.diff b w)).
Proof.
  intros Hlen Hw. unfold FieldsEditor.diff. rewrite diff_arrays.
  split; [reflexivity |]. simpl.
  rewrite deletedValues_covered by (apply indexed_covered; simpl; lia).
  destruct (reduce_items_addresses (VArr b) w 0 w []) as [Hnd Hall].
  - intros j x Hj. split; [exact Hj |].
    rewrite Forall_forall in Hw. apply Hw. eapply list_elem_of_lookup_2, Hj.
  - constructor.
  - constructor.
  - split; [now apply NoDup_distinct | exact Hall].
Qed.

(** The diff of two aligned sequences that differ at one position only. *)
Lemma diff_single_position (b w : list value) (i : nat) (bi wi : value) :
  length b = length w ->
  b !! i = Some bi -> w !! i = Some wi ->
  (forall j, j <> i -> b !! j = w !! j) ->
  Forall (fun x => Column.well_formed x = true) w ->
  Column.is_delta (diff bi wi) = true ->
  FieldsEditor.diff b w = VObj [(index_key i, diff bi wi)].
Proof.
  intros Hlen Hbi Hwi Hsame Hwf Hdelta.
  unfold FieldsEditor.diff. rewrite diff_arrays. f_equal.
  rewrite deletedValues_covered by (apply indexed_covered; simpl; lia).
  assert (Hskip : forall k xs acc,
    (forall j x, xs !! j = Some x -> k + j <> i /\ w !! (k + j) = Some x) ->
    reduce_items diff (VArr b) k xs acc = acc).
  { intros k xs acc H. apply reduce_items_skip. intros j x Hj.
    destruct (H j x Hj) as [Hne Hw].
    assert (Hb : b !! (k + j) = Some x) by now rewrite Hsame.
    rewrite has_own_item, (get_item b _ x Hb).
    split; [apply bool_decide_eq_true_2; now apply lookup_lt_Some in Hb |].
    rewrite Forall_forall in Hwf. apply list_elem_of_lookup_2 in Hw.
    now rewrite (diff_same x (Hwf x Hw)). }
  pose proof (lookup_lt_Some _ _ _ Hwi) as Hi.
  rewrite <- (take_drop_middle w i wi Hwi) at 1.
  rewrite reduce_items_app. simpl.
  rewrite length_take, Nat.min_l by lia.
  rewrite (Hskip 0 (take i w)).
  2:{ intros j x Hj. pose proof (lookup_lt_Some _ _ _ Hj) as Hlt.
      rewrite length_take in Hlt. rewrite lookup_take_lt in Hj by lia.
      simpl. split; [lia | exact Hj]. }
  rewrite Hskip.
  2:{ intros j x Hj. rewrite lookup_drop in Hj.
      split; [lia | exact Hj]. }
  unfold updated. rewrite has_own_item, bool_decide_eq_true_2 by lia. simpl.
  rewrite (get_item b i bi Hbi).
  unfold Column.is_delta in Hdelta. apply negb_true_iff in Hdelta.
  rewrite Hdelta. apply obj_set_nil.
Qed.

End Difference.

Section SingleChange.

Import FieldsEditor.

(** C5 as the code has it: when baseline and working are aligned, equal
    at every position but [i], and the structural difference at [i] is not
    empty, the change-set has exactly one key, the name of [working[i]];
    it is keyed by name, not by position. *)
Theorem changes_single_column (b w : list value) (i : nat) (bi wi : value) :
  length b = length w ->
  b !! i = Some bi -> w !! i = Some wi ->
  (forall j, j <> i -> b !! j = w !! j) ->
  Forall (fun x => Column.well_formed x = true) w ->
  Column.is_record wi = true ->
  Column.is_delta (DeepObjectDiff.diff bi wi) = true ->
  exists patch,
    changes (diff b w) w = Ok (VObj [(to_string (get wi "name"), patch)]) /\
    isDirty (diff b w) = true.
Proof.
  intros Hlen Hbi Hwi Hsame Hwf Hrec Hdelta.
  rewrite (diff_single_position b w i bi wi) by assumption.
  assert (Haddr : Column.addresses w (index_key i, DeepObjectDiff.diff bi wi) = true).
  { unfold Column.addresses. simpl. rewrite array_index_index_key, Hwi, Hrec.
    destruct wi as [| | | | | |es]; try discriminate.
    now destruct (diff_of_record bi es) as [es' ->]. }
  destruct (changesEntry_addressed w _ Haddr) as (j & c & co & Hk & Hj & _ & Hce).
  simpl in Hk. apply index_key_inj in Hk as <-. rewrite Hwi in Hj. injection Hj as <-.
  exists co. split; [| reflexivity].
  unfold changes. run. rewrite Hce. run. unfold fromEntries. simpl.
  now rewrite obj_set_nil.
Qed.

Lemma changes_single_column_witness :
  exists patch,
    changes (diff [Samples.id; Samples.title] [Samples.id; Samples.title2])
            [Samples.id; Samples.title2]
      = Ok (VObj [(to_string (get Samples.title2 "name"), patch)]) /\
    isDirty (diff [Samples.id; Samples.title] [Samples.id; Samples.title2]) = true.
Proof.
  apply (changes_single_column [Samples.id; Samples.title]
           [Samples.id; Samples.title2] 1 Samples.title Samples.title2).
  - reflexivity.
  - reflexivity.
  - reflexivity.
  - intros [| [| j]] Hj; [reflexivity | now contradict Hj | reflexivity].
  - repeat constructor.
  - reflexivity.
  - reflexivity.
Defined.

(** C5 as stated fails: a column can differ from its baseline without the
    diff seeing it. An empty array and an empty object have no key that
    differs, so the change-set is empty and the page is not dirty. *)
Lemma changes_empty_array_to_object :
  Samples.tags <> Samples.tags2 /\
  diff [Samples.id; Samples.tags] [Samples.id; Samples.tags2] = VObj [] /\
  changes (diff [Samples.id; Samples.tags] [Samples.id; Samples.tags2])
          [Samples.id; Samples.tags2] = Ok (VObj []) /\
  isDirty (diff [Samples.id; Samples.tags] [Samples.id; Samples.tags2]) = false.
Proof. split; [discriminate |]. repeat split; reflexivity. Qed.

Lemma changes_force_visibility_witness :
  exists cs patch,
    changes (diff [Samples.id; Samples.title] [Samples.id; Samples.title2])
            [Samples.id; Samples.title2] = Ok cs /\
    get cs (to_string (get Samples.title2 "name")) = patch /\
    get (get patch "baseOptions") "visibility"
      = Column.baseOption Samples.title2 "visibility".
Proof.
  apply (changes_force_visibility
           (diff [Samples.id; Samples.title] [Samples.id; Samples.title2])
           [Samples.id; Samples.title2] 1 Samples.title2
           (VObj [("baseOptions", VObj [("required", VBool true)])])).
  - reflexivity.
  - reflexivity.
  - repeat constructor.
  - reflexivity.
  - left.
  - reflexivity.
Defined.

Lemma changes_copy_fieldOptions_witness :
  exists cs patch,
    changes (diff [Samples.id; Samples.body] [Samples.id; Samples.body2])
            [Samples.id; Samples.body2] = Ok cs /\
    get cs (to_string (get Samples.body2 "name")) = patch /\
    get patch "fieldOptions"
      = VObj (own_entries
                (get (VObj [("fieldOptions", VObj [("rows", VNum 5)])])
                   "fieldOptions")).
Proof.
  apply (changes_copy_fieldOptions
           (diff [Samples.id; Samples.body] [Samples.id; Samples.body2])
           [Samples.id; Samples.body2] 1 Samples.body2
           (VObj [("fieldOptions", VObj [("rows", VNum 5)])])).
  - reflexivity.
  - reflexivity.
  - repeat constructor.
  - reflexivity.
  - left.
  - reflexivity.
Defined.

(** C4 as stated fails: when one field option changes, the entry carries
    that option only, not the full [fieldOptions] of the working column. *)
Lemma changes_partial_fieldOptions :
  get Samples.body2 "fieldOptions" = VObj [("rows", VNum 5); ("cols", VNum 2)] /\
  diff [Samples.id; Samples.body] [Samples.id; Samples.body2]
    = VObj [("1", VObj [("fieldOptions", VObj [("rows", VNum 5)])])] /\
  changes (diff [Samples.id; Samples.body] [Samples.id; Samples.body2])
          [Samples.id; Samples.body2]
    = Ok (VObj [("body",
                  VObj [("fieldOptions", VObj [("rows", VNum 5)]);
                        ("baseOptions", VObj [("visibility", Samples.views)])])]).
Proof. repeat split; reflexivity. Qed.

(** C3 fails for [nullValues]: the diff of two arrays is keyed by position,
    and only [visibility] is replaced by the current array. Adding a null
    value sends the new position alone; removing one sends the removed
    position bound to [undefined]. *)
Lemma changes_nullValues_by_position :
  Column.baseOption Samples.notes2 "nullValues" = VArr [VStr ""; VStr "null"] /\
  changes (diff [Samples.id; Samples.notes] [Samples.id; Samples.notes2])
          [Samples.id; Samples.notes2]
    = Ok (VObj [("notes",
                  VObj [("baseOptions",
                          VObj [("nullValues", VObj [("1", VStr "null")]);
                                ("visibility", Samples.views)]);
                        ("fieldOptions", VObj [])])]) /\
  changes (diff [Samples.id; Samples.notes2] [Samples.id; Samples.notes])
          [Samples.id; Samples.notes]
    = Ok (VObj [("notes",
                  VObj [("baseOptions",
                          VObj [("nullValues", VObj [("1", VUndef)]);
                                ("visibility", Samples.views)]);
                        ("fieldOptions", VObj [])])]).
Proof. repeat split; reflexivity. Qed.

End SingleChange.

(** ** The page at rest *)

Section AtRest.

Import FieldsEditor.

Lemma newColumn_typed (c c1 : value) (name X : string) (v : value) :
  Column.is_column c = true ->
  split "." name = ["baseOptions"; X] ->
  newColumn c name v = Ok c1 ->
  (X = "required" \/ X = "nullable" -> Column.is_flag v = true) ->
  Column.is_column c1 = true.
Proof.
  intros Hic Hsplit Hnew Hv.
  destruct (newColumn_baseOption c name X v Hic Hsplit)
    as (c1' & Hnew' & Hname & HX & Hoth & [es1 Hes1] & [bo1 Hbo1]).
  rewrite Hnew in Hnew'. injection Hnew' as <-.
  destruct (is_column_inv c Hic) as (es & nm & bo & Hc & Hnm & Hbo & Hr & Hn).
  unfold Column.baseOption in *. rewrite Hbo1 in HX, Hoth.
  unfold Column.is_column. rewrite Hes1 in *. rewrite Hname, Hnm, Hbo1.
  apply andb_true_intro. split.
  - destruct (String.eqb_spec X "required") as [-> | Hne].
    + rewrite HX. auto.
    + rewrite (Hoth "required") by congruence. exact Hr.
  - destruct (String.eqb_spec X "nullable") as [-> | Hne].
    + rewrite HX. auto.
    + rewrite (Hoth "nullable") by congruence. exact Hn.
Qed.

(** A render whose effects make no call leaves the state as it is. *)
Lemma settle_quiet (fuel : nat) (r1 n1 : value) (st : store) :
  truthy (column st) = true ->
  (exists bo, get (column st) "baseOptions" = VObj bo) ->
  strict_equal r1 (Column.baseOption (column st) "required") = true \/
    truthy (Column.baseOption (column st) "required") = false ->
  strict_equal n1 (Column.baseOption (column st) "nullable") = true \/
    truthy (Column.baseOption (column st) "nullable") = false ->
  settle (S fuel) (Some (r1, n1)) st = Ok st.
Proof.
  intros Ht Hbo Hr Hn. simpl. rewrite Ht, (effects_rendered _ _ Hbo). run.
  assert (E1 : (if negb (strict_equal r1 (Column.baseOption (column st) "required"))
                then if truthy (Column.baseOption (column st) "required")
                     then [(column st, "baseOptions.nullable", VBool false)]
                     else []
                else []) = []).
  { destruct Hr as [-> | ->]; [reflexivity | destruct (strict_equal r1 _); reflexivity]. }
  rewrite E1. simpl.
  destruct Hn as [-> | ->]; [reflexivity | destruct (strict_equal n1 _); reflexivity].
Qed.

Lemma store_insert_id (st : store) (i : nat) :
  columns st !! i = Some (column st) ->
  Store (<[i := column st]> (columns st)) (column st) = st.
Proof. intros H. rewrite list_insert_id by exact H. now destruct st. Qed.

(** The state the page comes to rest on after rendering a typed column:
    the last call of the effects, if any, decides. Two renders are enough. *)
Lemma settle_rest (fuel : nat) (prev : option (value * value)) (st : store)
    (i : nat) :
  2 <= fuel ->
  Column.is_column (column st) = true ->
  findColumn (columns st) (column st) = Ok (Some i) ->
  columns st !! i = Some (column st) ->
  exists c',
    Rest.column prev (column st) = Ok c' /\
    settle fuel prev st = Ok (Store (<[i := c']> (columns st)) c').
Proof.
  intros Hfuel Hic Hi Hat. set (c := column st) in *.
  destruct (is_column_inv c Hic) as (es & nm & bo & Hc & Hnm & Hbo & Hr & Hn).
  destruct (newColumn_baseOption c "baseOptions.nullable" "nullable"
              (VBool false) Hic eq_refl)
    as (cA & HnewA & HnameA & HsetA & HothA & [esA HesA] & HboA).
  destruct (newColumn_baseOption c "baseOptions.required" "required"
              (VBool false) Hic eq_refl)
    as (cB & HnewB & HnameB & HsetB & HothB & [esB HesB] & HboB).
  destruct (newColumn_baseOption c "baseOptions.nullValues" "nullValues"
              (VArr [VStr ""]) Hic eq_refl)
    as (cC & HnewC & HnameC & HsetC & HothC & [esC HesC] & HboC).
  pose proof (setColumnOption_found _ c cA _ _ i HnewA Hi) as HsA.
  pose proof (setColumnOption_found _ c cB _ _ i HnewB Hi) as HsB.
  pose proof (setColumnOption_found _ c cC _ _ i HnewC Hi) as HsC.
  destruct fuel as [| [| fuel]]; try lia.
  set (r := Column.baseOption c "required") in *.
  set (n := Column.baseOption c "nullable") in *.
  set (F := settle (S fuel)).
  assert (QA : F (Some (r, n)) (Store (<[i := cA]> (columns st)) cA)
               = Ok (Store (<[i := cA]> (columns st)) cA)).
  { apply settle_quiet; simpl; [now rewrite HesA | exact HboA | |].
    - left. rewrite (HothA "required") by discriminate. now apply strict_equal_flag.
    - right. now rewrite HsetA. }
  assert (QB : F (Some (r, n)) (Store (<[i := cB]> (columns st)) cB)
               = Ok (Store (<[i := cB]> (columns st)) cB)).
  { apply settle_quiet; simpl; [now rewrite HesB | exact HboB | |].
    - right. now rewrite HsetB.
    - left. rewrite (HothB "nullable") by discriminate. now apply strict_equal_flag. }
  assert (QC : F (Some (r, n)) (Store (<[i := cC]> (columns st)) cC)
               = Ok (Store (<[i := cC]> (columns st)) cC)).
  { apply settle_quiet; simpl; [now rewrite HesC | exact HboC | |].
    - left. rewrite (HothC "required") by discriminate. now apply strict_equal_flag.
    - left. rewrite (HothC "nullable") by discriminate. now apply strict_equal_flag. }
  change (settle (S (S fuel)) prev st) with
    (if truthy c then
       x ← ColumnEditor.effects prev c;
       u ← runCalls (columns st) x.2 None;
       match u with
       | Some st' => F (Some x.1) st'
       | None => mret st
       end
     else mret st).
  clearbody F.
  replace (truthy c) with true by now rewrite Hc.
  rewrite (effects_rendered prev c (ex_intro _ bo Hbo)).
  unfold Rest.column, Rest.fired. fold r n.
  assert (Hquiet : exists c', Ok c = Ok c' /\
            Ok st = Ok (Store (<[i := c']> (columns st)) c')).
  { exists c. split; [reflexivity |]. f_equal. symmetry. now apply store_insert_id. }
  destruct prev as [[r0 n0] |]; simpl;
    [destruct (strict_equal r0 r), (strict_equal n0 n) |];
    simpl;
    destruct (truthy r), (truthy n);
    try destruct (Lodash.isEmpty (Column.baseOption c "nullValues"));
    run; rewrite ?HsA, ?HsB, ?HsC; run; rewrite ?QA, ?QB, ?QC;
    first [exact Hquiet | eexists; split; [eassumption | reflexivity]].
Qed.

Lemma settle_length (fuel : nat) (prev : option (value * value)) (st st' : store) :
  settle fuel prev st = Ok st' -> length (columns st') = length (columns st).
Proof.
  revert prev st. induction fuel as [| fuel IH]; intros prev st H; [discriminate |].
  simpl in H. destruct (truthy (column st)); [| now injection H as <-].
  run. destruct (ColumnEditor.effects prev (column st)) as [x | |]; try discriminate.
  assert (Hcalls : forall calls pending u,
    runCalls (columns st) calls pending = Ok (Some u) ->
    (forall p, pending = Some p -> length (columns p) = length (columns st)) ->
    length (columns u) = length (columns st)).
  { induction calls as [| call calls IHc]; intros pending u Hu Hp; simpl in Hu.
    - injection Hu as ->. now apply Hp.
    - run. destruct (setColumnOption (columns st) call.1.1 call.1.2 call.2)
        as [[s |] | |] eqn:Hs; try discriminate.
      + apply (IHc _ _ Hu). intros p [= <-]. unfold setColumnOption in Hs. run.
        destruct (newColumn _ _ _); try discriminate.
        destruct (findColumn _ _) as [[j |] | |]; try discriminate.
        injection Hs as <-. simpl. apply length_insert.
      + apply (IHc _ _ Hu Hp). }
  destruct (runCalls (columns st) x.2 None) as [[u |] | |] eqn:Hu; try discriminate.
  - rewrite (IH _ _ H). apply (Hcalls _ _ _ Hu). discriminate.
  - now injection H as <-.
Qed.

(** X1: no use of the page adds or removes a column: whenever mounting,
    selecting or editing comes to rest, the working sequence has the length
    it had, that of the loaded sequence. *)
Theorem page_keeps_length (fuel : nat) (st st' : store) :
  (exists c name v, mutate fuel st c name v = Ok st') \/
  (exists col, select fuel st col = Ok st') \/
  (exists h, Controls.handle fuel st h = Ok st') \/
  mount fuel (columns st) = Ok st' ->
  length (columns st') = length (columns st).
Proof.
  assert (Hmut : forall c name v, mutate fuel st c name v = Ok st' ->
            length (columns st') = length (columns st)).
  { intros c name v H. unfold mutate in H. run.
    destruct (setColumnOption (columns st) c name v) as [[s |] | |] eqn:Hs;
      try discriminate; [| now injection H as <-].
    destruct (lastDeps st); try discriminate.
    rewrite (settle_length _ _ _ _ H).
    unfold setColumnOption in Hs. run.
    destruct (newColumn _ _ _); try discriminate.
    destruct (findColumn _ _) as [[j |] | |]; try discriminate.
    injection Hs as <-. simpl. apply length_insert. }
  intros [(c & name & v & H) | [[col H] | [[h H] | H]]].
  - now apply (Hmut c name v).
  - unfold select in H. run. destruct (lastDeps st); try discriminate.
    now rewrite (settle_length _ _ _ _ H).
  - unfold Controls.handle in H. run.
    destruct (h (column st)) as [[[c name] v] | |]; try discriminate.
    now apply (Hmut c name v).
  - unfold mount in H. destruct (columns st) as [| c cs] eqn:E.
    + now injection H as <-.
    + now rewrite (settle_length _ _ _ _ H).
Qed.

Lemma page_keeps_length_witness :
  length (columns (Store [Samples.id; Samples.both] Samples.both))
  = length (columns (Store [Samples.id; Samples.email] Samples.email)).
Proof.
  apply (page_keeps_length 8 (Store [Samples.id; Samples.email] Samples.email)
           (Store [Samples.id; Samples.both] Samples.both)).
  left. exists Samples.email, "baseOptions.nullable", (VBool true). reflexivity.
Defined.

Lemma get_own_entries (x : value) (k : string) :
  has_length x = None -> get (VObj (own_entries x)) k = get x k.
Proof. intros H. unfold get. simpl. now rewrite H. Qed.

(** What a namespaced write leaves alone. *)
Lemma newColumn_frame (c c1 : value) (name ns n : string) (v : value) :
  (exists es, c = VObj es) ->
  split "." name = [ns; n] -> ns <> "" ->
  newColumn c name v = Ok c1 ->
  (forall k, k <> ns -> get c1 k = get c k) /\
  (has_length (get c ns) = None ->
   forall n', n' <> n -> get (get c1 ns) n' = get (get c ns) n').
Proof.
  intros [es ->] Hsplit Hns Hnew. unfold newColumn in Hnew. rewrite Hsplit in Hnew.
  apply String.eqb_neq in Hns. rewrite Hns in Hnew. run. injection Hnew as <-.
  split.
  - intros k Hk. now apply get_obj_set_ne.
  - intros Hlen n' Hn'. rewrite get_obj_set_eq, get_obj_set_ne by exact Hn'.
    now apply get_own_entries.
Qed.

Lemma is_column_object (c : value) :
  Column.is_column c = true -> exists es, c = VObj es.
Proof. intros (es & _ & _ & -> & _)%is_column_inv. eauto. Qed.

Lemma is_column_baseOptions (c : value) :
  Column.is_column c = true -> exists bo, get c "baseOptions" = VObj bo.
Proof. intros (es & nm & bo & _ & _ & -> & _)%is_column_inv. eauto. Qed.

(** The column at rest is again a typed column of the same name, and
    differs from the rendered one in [required], [nullable] or [nullValues]
    at most. *)
Lemma rest_column_typed (prev : option (value * value)) (c c' : value) :
  Column.is_column c = true ->
  Rest.column prev c = Ok c' ->
  Column.is_column c' = true /\
  (forall k, k <> "baseOptions" -> get c' k = get c k) /\
  (forall Y, Y <> "required" -> Y <> "nullable" -> Y <> "nullValues" ->
     Column.baseOption c' Y = Column.baseOption c Y).
Proof.
  intros Hic H.
  assert (Hone : forall name X v,
    split "." name = ["baseOptions"; X] ->
    (X = "required" \/ X = "nullable" -> Column.is_flag v = true) ->
    (X = "required" \/ X = "nullable" \/ X = "nullValues") ->
    newColumn c name v = Ok c' ->
    Column.is_column c' = true /\
    (forall k, k <> "baseOptions" -> get c' k = get c k) /\
    (forall Y, Y <> "required" -> Y <> "nullable" -> Y <> "nullValues" ->
       Column.baseOption c' Y = Column.baseOption c Y)).
  { intros name X v Hsplit Hv HX Hnew.
    split; [now apply (newColumn_typed c c' name X v) |].
    destruct (newColumn_frame c c' name "baseOptions" X v
                (is_column_object c Hic) Hsplit ltac:(discriminate) Hnew) as [Htop Hin].
    split; [exact Htop |]. intros Y H1 H2 H3. apply Hin.
    - destruct (is_column_baseOptions c Hic) as [bo ->]. reflexivity.
    - destruct HX as [-> | [-> | ->]]; assumption. }
  unfold Rest.column in H.
  destruct (Rest.fired prev snd _).
  - destruct (Lodash.isEmpty _).
    + apply (Hone "baseOptions.nullValues" "nullValues" _ eq_refl) in H; auto.
      intros [? | ?]; discriminate.
    + apply (Hone "baseOptions.required" "required" _ eq_refl) in H; auto.
  - destruct (Rest.fired prev fst _).
    + apply (Hone "baseOptions.nullable" "nullable" _ eq_refl) in H; auto.
    + injection H as <-. auto.
Qed.

(** An edit of the column the editor shows, in closed form. *)
Lemma mutate_rest (fuel : nat) (st : store) (name : string) (v c1 : value) (i : nat) :
  2 <= fuel ->
  Column.is_column (column st) = true ->
  findColumn (columns st) (column st) = Ok (Some i) ->
  newColumn (column st) name v = Ok c1 ->
  Column.is_column c1 = true ->
  get c1 "name" = get (column st) "name" ->
  exists c',
    Rest.column (Some (Column.baseOption (column st) "required",
                       Column.baseOption (column st) "nullable")) c1 = Ok c' /\
    mutate fuel st (column st) name v = Ok (Store (<[i := c']> (columns st)) c').
Proof.
  intros Hfuel Hic Hi Hnew Hic1 Hname. set (c := column st) in *.
  destruct (is_column_inv c Hic) as (es & nm & bo & Hc & Hnm & Hbo & _).
  pose proof (findColumn_in_range _ _ _ Hi) as Hlt.
  assert (Hn1 : nullish c1 = false).
  { destruct (is_column_object c1 Hic1) as [es1 ->]. reflexivity. }
  assert (Hi1 : findColumn (<[i := c1]> (columns st)) c1 = Ok (Some i)).
  { rewrite <- (findColumn_same_name _ c c1); [| now rewrite Hc | exact Hn1 | congruence].
    apply findColumn_insert; [exact Hi | exact Hn1 |].
    rewrite Hname, Hnm. simpl. apply String.eqb_refl. }
  destruct (settle_rest fuel
              (Some (Column.baseOption c "required", Column.baseOption c "nullable"))
              (Store (<[i := c1]> (columns st)) c1) i Hfuel Hic1 Hi1)
    as (c' & Hrest & Hsettle).
  { simpl. now apply list_lookup_insert_eq. }
  exists c'. split; [exact Hrest |].
  unfold mutate. rewrite (setColumnOption_found _ c c1 _ _ i Hnew Hi). run.
  rewrite (lastDeps_rendered st bo); [| fold c; now rewrite Hc | exact Hbo]. run.
  fold c. rewrite Hsettle. now rewrite list_insert_insert_eq.
Qed.

(** X2: an edit of an option of [baseOptions] on the column the editor
    shows comes to rest within two renders, without error. The new working
    sequence differs from the old one at the position of the column only;
    the entry there is the selected column, is again a typed column, and
    differs from the old one in [baseOptions] only, and there in the edited
    option, [required], [nullable] and [nullValues] at most. *)
Theorem edit_comes_to_rest (fuel : nat) (st : store) (name X : string)
    (v : value) (i : nat) :
  2 <= fuel ->
  Column.is_column (column st) = true ->
  findColumn (columns st) (column st) = Ok (Some i) ->
  split "." name = ["baseOptions"; X] ->
  (X = "required" \/ X = "nullable" -> Column.is_flag v = true) ->
  exists st',
    mutate fuel st (column st) name v = Ok st' /\
    (forall j, j <> i -> columns st' !! j = columns st !! j) /\
    columns st' !! i = Some (column st') /\
    Column.is_column (column st') = true /\
    (forall k, k <> "baseOptions" -> get (column st') k = get (column st) k) /\
    (forall Y, Y <> X -> Y <> "required" -> Y <> "nullable" -> Y <> "nullValues" ->
       Column.baseOption (column st') Y = Column.baseOption (column st) Y).
Proof.
  intros Hfuel Hic Hi Hsplit Hv.
  destruct (newColumn_baseOption _ name X v Hic Hsplit)
    as (c1 & Hnew & Hname & _ & Hoth & _ & _).
  pose proof (newColumn_typed _ c1 name X v Hic Hsplit Hnew Hv) as Hic1.
  destruct (newColumn_frame _ c1 name "baseOptions" X v
              (is_column_object _ Hic) Hsplit ltac:(discriminate) Hnew) as [Htop _].
  destruct (mutate_rest fuel st name v c1 i Hfuel Hic Hi Hnew Hic1 Hname)
    as (c' & Hrest & Hmut).
  destruct (rest_column_typed _ c1 c' Hic1 Hrest) as (Hic' & Htop' & Hoth').
  pose proof (findColumn_in_range _ _ _ Hi) as Hlt.
  eexists. split; [exact Hmut |]. simpl. repeat split.
  - intros j Hj. now apply list_lookup_insert_ne.
  - now apply list_lookup_insert_eq.
  - exact Hic'.
  - intros k Hk. now rewrite Htop', Htop.
  - intros Y H0 H1 H2 H3. now rewrite Hoth', Hoth.
Qed.

Lemma edit_comes_to_rest_witness :
  exists st',
    mutate 2 (Store [Samples.id; Samples.email] Samples.email)
      (column (Store [Samples.id; Samples.email] Samples.email))
      "baseOptions.nullable" (VBool true) = Ok st' /\
    (forall j, j <> 1 ->
       columns st' !! j = columns (Store [Samples.id; Samples.email] Samples.email) !! j) /\
    columns st' !! 1 = Some (column st') /\
    Column.is_column (column st') = true /\
    (forall k, k <> "baseOptions" ->
       get (column st') k
       = get (column (Store [Samples.id; Samples.email] Samples.email)) k) /\
    (forall Y, Y <> "nullable" -> Y <> "required" -> Y <> "nullable" ->
       Y <> "nullValues" ->
       Column.baseOption (column st') Y
       = Column.baseOption (column (Store [Samples.id; Samples.email] Samples.email)) Y).
Proof.
  apply (edit_comes_to_rest 2 (Store [Samples.id; Samples.email] Samples.email)
           "baseOptions.nullable" "nullable" (VBool true) 1).
  - lia.
  - reflexivity.
  - reflexivity.
  - reflexivity.
  - reflexivity.
Defined.

(** An edit after which neither effect has a call to make is the plain
    update of one entry. *)
Lemma mutate_quiet (fuel : nat) (st : store) (name : string) (v c1 : value) (i : nat) :
  1 <= fuel ->
  Column.is_column (column st) = true ->
  findColumn (columns st) (column st) = Ok (Some i) ->
  newColumn (column st) name v = Ok c1 ->
  (exists bo1, get c1 "baseOptions" = VObj bo1) ->
  Column.baseOption c1 "required" = Column.baseOption (column st) "required" \/
    truthy (Column.baseOption c1 "required") = false ->
  Column.baseOption c1 "nullable" = Column.baseOption (column st) "nullable" \/
    truthy (Column.baseOption c1 "nullable") = false ->
  mutate fuel st (column st) name v = Ok (Store (<[i := c1]> (columns st)) c1).
Proof.
  intros Hfuel Hic Hi Hnew Hbo1 Hr Hn.
  destruct (is_column_inv _ Hic) as (es & nm & bo & Hc & Hnm & Hbo & Hfr & Hfn).
  unfold mutate. rewrite (setColumnOption_found _ _ c1 _ _ i Hnew Hi). run.
  rewrite (lastDeps_rendered st bo); [| now rewrite Hc | exact Hbo]. run.
  destruct fuel as [| fuel]; [lia |].
  apply settle_quiet; simpl.
  - destruct (newColumn_returns (column st) name v) as [es1 Hes1]; [now rewrite Hc |].
    rewrite Hnew in Hes1. now injection Hes1 as ->.
  - exact Hbo1.
  - destruct Hr as [-> | Hr]; [left; now apply strict_equal_flag | now right].
  - destruct Hn as [-> | Hn]; [left; now apply strict_equal_flag | now right].
Qed.

(** X3: an edit that sets neither [required] nor [nullable] to a truthy
    value runs no rule: one render is enough, and the result is the working
    sequence with the one entry replaced by the copy of the column with the
    option set. This covers the options of other namespaces and the
    top-level fields other than [baseOptions]. *)
Theorem edit_without_rule (fuel : nat) (st : store) (name : string)
    (v : value) (i : nat) :
  1 <= fuel ->
  Column.is_column (column st) = true ->
  findColumn (columns st) (column st) = Ok (Some i) ->
  (exists ns X, split "." name = [ns; X] /\ ns <> "" /\
     (ns <> "baseOptions" \/ (X <> "required" /\ X <> "nullable") \/
      truthy v = false)) \/
  (split "." name = [name] /\ name <> "baseOptions") ->
  exists c1,
    newColumn (column st) name v = Ok c1 /\
    mutate fuel st (column st) name v = Ok (Store (<[i := c1]> (columns st)) c1).
Proof.
  intros Hfuel Hic Hi Hshape.
  destruct (is_column_inv _ Hic) as (es & nm & bo & Hc & Hnm & Hbo & Hfr & Hfn).
  destruct (newColumn_returns (column st) name v) as [es1 Hnew]; [now rewrite Hc |].
  exists (VObj es1). split; [exact Hnew |].
  assert (Hkeep : get (VObj es1) "baseOptions" = get (column st) "baseOptions" ->
    mutate fuel st (column st) name v
    = Ok (Store (<[i := VObj es1]> (columns st)) (VObj es1))).
  { intros E. apply mutate_quiet; auto.
    - exists bo. now rewrite E.
    - left. unfold Column.baseOption. now rewrite E.
    - left. unfold Column.baseOption. now rewrite E. }
  destruct Hshape as [(ns & X & Hsplit & Hns & Hcase) | [Hsplit Hname]].
  - destruct (newColumn_frame _ _ name ns X v (is_column_object _ Hic) Hsplit Hns Hnew)
      as [Htop Hin].
    destruct (String.eqb_spec ns "baseOptions") as [-> | Hne];
      [| apply Hkeep; now apply Htop].
    destruct (newColumn_baseOption _ name X v Hic Hsplit)
      as (c1 & Hnew1 & _ & HX & Hoth & _ & Hbo1).
    rewrite Hnew in Hnew1. injection Hnew1 as <-.
    apply mutate_quiet; auto.
    + destruct (String.eqb_spec X "required") as [-> | HXr].
      * right. rewrite HX.
        destruct Hcase as [? | [[? _] | ?]]; [congruence | congruence | assumption].
      * left. now apply Hoth.
    + destruct (String.eqb_spec X "nullable") as [-> | HXn].
      * right. rewrite HX.
        destruct Hcase as [? | [[_ ?] | ?]]; [congruence | congruence | assumption].
      * left. now apply Hoth.
  - apply Hkeep. unfold newColumn in Hnew. rewrite Hsplit in Hnew. run.
    injection Hnew as <-. rewrite Hc. now apply get_obj_set_ne.
Qed.

Lemma edit_without_rule_witness :
  exists c1,
    newColumn (column (Store [Samples.id; Samples.body] Samples.body))
      "fieldOptions.rows" (VNum 5) = Ok c1 /\
    mutate 1 (Store [Samples.id; Samples.body] Samples.body)
      (column (Store [Samples.id; Samples.body] Samples.body))
      "fieldOptions.rows" (VNum 5)
    = Ok (Store (<[1 := c1]> (columns (Store [Samples.id; Samples.body] Samples.body))) c1).
Proof.
  apply (edit_without_rule 1 (Store [Samples.id; Samples.body] Samples.body)
           "fieldOptions.rows" (VNum 5) 1).
  - lia.
  - reflexivity.
  - reflexivity.
  - left. exists "fieldOptions", "rows".
    split; [reflexivity |]. split; [discriminate |]. left. discriminate.
Defined.

Lemma truthy_flag (v : value) :
  Column.is_flag v = true -> truthy v = true -> v = VBool true.
Proof. destruct v as [| |[]| | | |]; try discriminate; reflexivity. Qed.

(** A use of a control, in closed form. *)
Lemma handle_rest (fuel : nat) (st : store)
    (handler : value -> result ColumnEditor.call) (X : string) (v : value) (i : nat) :
  2 <= fuel ->
  Column.is_column (column st) = true ->
  findColumn (columns st) (column st) = Ok (Some i) ->
  handler (column st) = Ok (column st, ("baseOptions." ++ X)%string, v) ->
  split "." ("baseOptions." ++ X)%string = ["baseOptions"; X] ->
  (X = "required" \/ X = "nullable" -> Column.is_flag v = true) ->
  exists c1 c',
    Column.is_column c1 = true /\
    Column.baseOption c1 X = v /\
    (forall Y, Y <> X -> Column.baseOption c1 Y = Column.baseOption (column st) Y) /\
    Rest.column (Some (Column.baseOption (column st) "required",
                       Column.baseOption (column st) "nullable")) c1 = Ok c' /\
    Controls.handle fuel st handler = Ok (Store (<[i := c']> (columns st)) c').
Proof.
  intros Hfuel Hic Hi Hh Hsplit Hv.
  destruct (newColumn_baseOption _ _ X v Hic Hsplit)
    as (c1 & Hnew & Hname & HX & Hoth & _ & _).
  pose proof (newColumn_typed _ c1 _ X v Hic Hsplit Hnew Hv) as Hic1.
  destruct (mutate_rest fuel st _ v c1 i Hfuel Hic Hi Hnew Hic1 Hname)
    as (c' & Hrest & Hmut).
  exists c1, c'. repeat split; auto.
  unfold Controls.handle. rewrite Hh. exact Hmut.
Qed.

(** X4: the checkbox "Required" never leaves a column required and
    nullable. Clicking it on a typed column inverts [required]; when the
    column becomes required it is made not nullable, and when it stops being
    required [nullable] is left as it was. Nothing else in the working
    sequence changes. *)
Theorem required_click (fuel : nat) (st : store) (i : nat) :
  2 <= fuel ->
  Column.is_column (column st) = true ->
  findColumn (columns st) (column st) = Ok (Some i) ->
  exists c',
    Controls.handle fuel st Controls.requiredChange
      = Ok (Store (<[i := c']> (columns st)) c') /\
    Column.baseOption c' "required"
      = VBool (negb (truthy (Column.baseOption (column st) "required"))) /\
    Column.baseOption c' "nullable"
      = (if truthy (Column.baseOption (column st) "required")
         then Column.baseOption (column st) "nullable" else VBool false) /\
    Column.baseOption c' "nullValues" = Column.baseOption (column st) "nullValues".
Proof.
  intros Hfuel Hic Hi.
  destruct (is_column_inv _ Hic) as (es & nm & bo & Hc & Hnm & Hbo & Hfr & Hfn).
  set (r := Column.baseOption (column st) "required") in *.
  set (n := Column.baseOption (column st) "nullable") in *.
  destruct (handle_rest fuel st Controls.requiredChange "required"
              (VBool (negb (truthy r))) i Hfuel Hic Hi)
    as (c1 & c' & Hic1 & HX & Hoth & Hrest & Hh);
    [unfold Controls.requiredChange, r, Column.baseOption; now rewrite Hbo
    | reflexivity | reflexivity |].
  exists c'. split; [exact Hh |].
  unfold Rest.column, Rest.fired in Hrest. fold r n in Hrest. simpl in Hrest.
  rewrite HX, !Hoth in Hrest by discriminate. fold n in Hrest.
  rewrite (strict_equal_flag n Hfn) in Hrest. simpl in Hrest.
  destruct (truthy r) eqn:Htr; simpl in Hrest.
  - rewrite andb_false_r in Hrest. injection Hrest as <-.
    rewrite HX, !Hoth by discriminate. auto.
  - replace (strict_equal r (VBool true)) with false in Hrest
      by (destruct r as [| |[]| | | |]; try reflexivity; discriminate).
    simpl in Hrest.
    destruct (newColumn_baseOption c1 "baseOptions.nullable" "nullable"
                (VBool false) Hic1 eq_refl) as (c2 & Hnew2 & _ & HX2 & Hoth2 & _).
    rewrite Hrest in Hnew2. injection Hnew2 as <-.
    rewrite HX2, !Hoth2, HX, Hoth by discriminate. auto.
Qed.

Lemma required_click_witness :
  exists c',
    Controls.handle 2 (Store [Samples.id; Samples.notes] Samples.notes)
      Controls.requiredChange
      = Ok (Store (<[1 := c']> (columns (Store [Samples.id; Samples.notes] Samples.notes))) c') /\
    Column.baseOption c' "required"
      = VBool (negb (truthy (Column.baseOption
                               (column (Store [Samples.id; Samples.notes] Samples.notes))
                               "required"))) /\
    Column.baseOption c' "nullable"
      = (if truthy (Column.baseOption
                      (column (Store [Samples.id; Samples.notes] Samples.notes))
                      "required")
         then Column.baseOption
                (column (Store [Samples.id; Samples.notes] Samples.notes)) "nullable"
         else VBool false) /\
    Column.baseOption c' "nullValues"
      = Column.baseOption (column (Store [Samples.id; Samples.notes] Samples.notes))
          "nullValues".
Proof.
  apply (required_click 2 (Store [Samples.id; Samples.notes] Samples.notes) 1).
  - lia.
  - reflexivity.
  - reflexivity.
Defined.

(** X5: the checkbox "Nullable". Clicking it on a typed column inverts
    [nullable]. When the column stops being nullable nothing else changes.
    When it becomes nullable exactly one repair is made: with null values
    present, [required] is cleared; with none, [nullValues] becomes the empty
    string alone and [required] is left as it was. *)
Theorem nullable_click (fuel : nat) (st : store) (i : nat) :
  2 <= fuel ->
  Column.is_column (column st) = true ->
  findColumn (columns st) (column st) = Ok (Some i) ->
  exists c',
    Controls.handle fuel st Controls.nullableChange
      = Ok (Store (<[i := c']> (columns st)) c') /\
    Column.baseOption c' "nullable"
      = VBool (negb (truthy (Column.baseOption (column st) "nullable"))) /\
    Column.baseOption c' "required"
      = (if negb (truthy (Column.baseOption (column st) "nullable")) &&
            negb (Lodash.isEmpty (Column.baseOption (column st) "nullValues"))
         then VBool false else Column.baseOption (column st) "required") /\
    Column.baseOption c' "nullValues"
      = (if negb (truthy (Column.baseOption (column st) "nullable")) &&
            Lodash.isEmpty (Column.baseOption (column st) "nullValues")
         then VArr [VStr ""] else Column.baseOption (column st) "nullValues").
Proof.
  intros Hfuel Hic Hi.
  destruct (is_column_inv _ Hic) as (es & nm & bo & Hc & Hnm & Hbo & Hfr & Hfn).
  set (r := Column.baseOption (column st) "required") in *.
  set (n := Column.baseOption (column st) "nullable") in *.
  destruct (handle_rest fuel st Controls.nullableChange "nullable"
              (VBool (negb (truthy n))) i Hfuel Hic Hi)
    as (c1 & c' & Hic1 & HX & Hoth & Hrest & Hh);
    [unfold Controls.nullableChange, n, Column.baseOption; now rewrite Hbo
    | reflexivity | reflexivity |].
  exists c'. split; [exact Hh |].
  unfold Rest.column, Rest.fired in Hrest. fold r n in Hrest. simpl in Hrest.
  rewrite HX, !Hoth in Hrest by discriminate. fold r in Hrest.
  rewrite (strict_equal_flag r Hfr) in Hrest. simpl in Hrest.
  destruct (truthy n) eqn:Htn; simpl in Hrest |- *.
  - rewrite andb_false_r in Hrest. injection Hrest as <-.
    rewrite HX, !Hoth by discriminate. auto.
  - replace (strict_equal n (VBool true)) with false in Hrest
      by (destruct n as [| |[]| | | |]; try reflexivity; discriminate).
    simpl in Hrest.
    destruct (Lodash.isEmpty (Column.baseOption (column st) "nullValues")).
    + destruct (newColumn_baseOption c1 "baseOptions.nullValues" "nullValues"
                  (VArr [VStr ""]) Hic1 eq_refl) as (c2 & Hnew2 & _ & HX2 & Hoth2 & _).
      rewrite Hrest in Hnew2. injection Hnew2 as <-.
      rewrite HX2, !Hoth2, HX, Hoth by discriminate. auto.
    + destruct (newColumn_baseOption c1 "baseOptions.required" "required"
                  (VBool false) Hic1 eq_refl) as (c2 & Hnew2 & _ & HX2 & Hoth2 & _).
      rewrite Hrest in Hnew2. injection Hnew2 as <-.
      rewrite HX2, !Hoth2, HX, Hoth by discriminate. auto.
Qed.

Lemma nullable_click_witness :
  exists c',
    Controls.handle 2 (Store [Samples.id; Samples.title] Samples.title)
      Controls.nullableChange
      = Ok (Store (<[1 := c']> (columns (Store [Samples.id; Samples.title] Samples.title))) c') /\
    Column.baseOption c' "nullable"
      = VBool (negb (truthy (Column.baseOption
                               (column (Store [Samples.id; Samples.title] Samples.title))
                               "nullable"))) /\
    Column.baseOption c' "required"
      = (if negb (truthy (Column.baseOption
                            (column (Store [Samples.id; Samples.title] Samples.title))
                            "nullable")) &&
            negb (Lodash.isEmpty
                    (Column.baseOption
                       (column (Store [Samples.id; Samples.title] Samples.title))
                       "nullValues"))
         then VBool false
         else Column.baseOption
                (column (Store [Samples.id; Samples.title] Samples.title)) "required") /\
    Column.baseOption c' "nullValues"
      = (if negb (truthy (Column.baseOption
                            (column (Store [Samples.id; Samples.title] Samples.title))
                            "nullable")) &&
            Lodash.isEmpty
              (Column.baseOption
                 (column (Store [Samples.id; Samples.title] Samples.title))
                 "nullValues")
         then VArr [VStr ""]
         else Column.baseOption
                (column (Store [Samples.id; Samples.title] Samples.title)) "nullValues").
Proof.
  apply (nullable_click 2 (Store [Samples.id; Samples.title] Samples.title) 1).
  - lia.
  - reflexivity.
  - reflexivity.
Defined.

Lemma obj_set_same (k : string) (v : value) (es : entries) :
  lookup_key k es = Some v -> obj_set k v es = es.
Proof.
  intros H. unfold obj_set, has_key. rewrite H.
  induction es as [| [k' v'] es IH]; simpl in *; [discriminate |].
  destruct (k' =? k)%string; [congruence | f_equal; auto].
Qed.

Lemma get_defined (k : string) (v : value) (es : entries) :
  get (VObj es) k = v -> v <> VUndef -> lookup_key k es = Some v.
Proof.
  unfold get. simpl. destruct (lookup_key k es); [congruence |].
  intros <-. congruence.
Qed.

(** Writing the value an option already has gives the same column. *)
Lemma newColumn_same (c : value) (name X : string) (v : value) :
  Column.is_column c = true ->
  split "." name = ["baseOptions"; X] ->
  Column.baseOption c X = v -> v <> VUndef ->
  newColumn c name v = Ok c.
Proof.
  intros (es & nm & bo & -> & _ & Hbo & _)%is_column_inv Hsplit HX Hv.
  unfold newColumn. rewrite Hsplit. run. rewrite Hbo. simpl.
  unfold Column.baseOption in HX. rewrite Hbo in HX.
  rewrite (obj_set_same X v bo) by now apply get_defined.
  rewrite obj_set_same; [reflexivity |]. now apply get_defined.
Qed.








End AtRest.

(** ** The null value checkboxes *)

Section NullValues.

Import FieldsEditor.

Lemma includes_app (xs ys : list value) (v : value) :
  Controls.includes (xs ++ ys) v = Controls.includes xs v || Controls.includes ys v.
Proof. unfold Controls.includes. apply existsb_app. Qed.

Lemma strict_equal_trans (x v w : value) :
  strict_equal x v = true -> strict_equal x w = true -> strict_equal w v = true.
Proof.
  destruct x, v, w; simpl; try discriminate; try reflexivity.
  - intros ->%Bool.eqb_prop ->%Bool.eqb_prop. apply eqb_reflx.
  - intros ->%Z.eqb_eq ->%Z.eqb_eq. apply Z.eqb_refl.
  - intros ->%String.eqb_eq ->%String.eqb_eq. apply String.eqb_refl.
Qed.

Lemma includes_without_other (xs : list value) (v w : value) :
  strict_equal w v = false ->
  Controls.includes (Controls.without xs v) w = Controls.includes xs w.
Proof.
  intros E. induction xs as [| x xs IH]; simpl; [reflexivity |].
  destruct (strict_equal x v) eqn:Ex; simpl; [| now rewrite IH].
  rewrite IH. destruct (strict_equal x w) eqn:Exw; [| reflexivity].
  now rewrite (strict_equal_trans x v w Ex Exw) in E.
Qed.

Lemma without_excludes (xs : list value) (v : value) :
  Controls.includes (Controls.without xs v) v = false.
Proof.
  induction xs as [| x xs IH]; simpl; [reflexivity |].
  destruct (strict_equal x v) eqn:E; simpl; [exact IH | now rewrite E].
Qed.

Lemma without_absent (xs : list value) (v : value) :
  Controls.includes xs v = false -> Controls.without xs v = xs.
Proof.
  induction xs as [| x xs IH]; simpl; [reflexivity |].
  intros [Hx Hxs]%orb_false_elim. rewrite Hx. simpl. now rewrite IH.
Qed.

Lemma indexed_values (k : nat) (xs : list value) : (indexed k xs).*2 = xs.
Proof.
  revert k. induction xs as [| x xs IH]; intros k; simpl; [reflexivity |].
  f_equal. apply IH.
Qed.

Lemma replace_key_twice (k : string) (v w : value) (es : entries) :
  replace_key k w (replace_key k v es) = replace_key k w es.
Proof.
  induction es as [| [k' v'] es IH]; simpl; [reflexivity |].
  destruct (k' =? k)%string eqn:E; simpl; rewrite E; [reflexivity | now rewrite IH].
Qed.

Lemma replace_key_insert_index (i : nat) (k : string) (v w : value) (es : entries) :
  lookup_key k es = None ->
  replace_key k w (insert_index i k v es) = insert_index i k w es.
Proof.
  induction es as [| [k' v'] es IH]; simpl.
  - now rewrite String.eqb_refl.
  - destruct (String.eqb_spec k' k) as [-> | Hne]; [discriminate |]. intros H.
    apply String.eqb_neq in Hne.
    destruct (array_index k') as [j |]; [destruct (j <? i)%nat |]; simpl;
      rewrite ?String.eqb_refl, ?Hne, ?IH; auto.
Qed.

Lemma replace_key_app (k : string) (v w : value) (es : entries) :
  lookup_key k es = None ->
  replace_key k w (es ++ [(k, v)]) = es ++ [(k, w)].
Proof.
  induction es as [| [k' v'] es IH]; simpl.
  - now rewrite String.eqb_refl.
  - destruct (k' =? k)%string; [discriminate |]. intros H. now rewrite IH.
Qed.

(** Of two writes to one property the second wins. *)
Lemma obj_set_twice (k : string) (v w : value) (es : entries) :
  obj_set k w (obj_set k v es) = obj_set k w es.
Proof.
  unfold obj_set at 1. unfold has_key. rewrite lookup_obj_set_eq.
  unfold obj_set. destruct (has_key k es) eqn:E.
  - apply replace_key_twice.
  - apply has_key_false in E. destruct (array_index k).
    + now apply replace_key_insert_index.
    + now apply replace_key_app.
Qed.

(** Of two edits of one option the second wins. *)
Lemma newColumn_twice (c c1 : value) (name : string) (v w : value) :
  nullish c = false ->
  newColumn c name v = Ok c1 ->
  newColumn c1 name w = newColumn c name w.
Proof.
  intros Hc Hnew. unfold newColumn in *.
  destruct (split "." name) as [| s0 [| s1 [| s2 l]]]; run;
    try (injection Hnew as <-; simpl; now rewrite obj_set_twice).
  destruct (s0 =? "")%string; run.
  - injection Hnew as <-. simpl. now rewrite obj_set_twice.
  - rewrite Hc in *. injection Hnew as <-. simpl.
    rewrite get_obj_set_eq. cbn [own_entries]. now rewrite !obj_set_twice.
Qed.

(** X8: of two edits of one option of a column the second wins, and
    repeating an edit changes nothing: [setColumnOption] builds from the
    copy with the option set to [v] the same column for [w] as from the
    original. *)
Theorem newColumn_last_write_wins (c c1 : value) (name : string) (v w : value) :
  nullish c = false ->
  newColumn c name v = Ok c1 ->
  newColumn c1 name w = newColumn c name w /\
  newColumn c1 name v = Ok c1.
Proof.
  intros Hc Hnew. split.
  - now apply (newColumn_twice c c1 name v w).
  - now rewrite (newColumn_twice c c1 name v v Hc Hnew).
Qed.

Lemma newColumn_last_write_wins_witness :
  newColumn Samples.notes2 "baseOptions.nullValues" (VArr [])
    = newColumn Samples.notes "baseOptions.nullValues" (VArr []) /\
  newColumn Samples.notes2 "baseOptions.nullValues" (VArr [VStr ""; VStr "null"])
    = Ok Samples.notes2.
Proof.
  apply (newColumn_last_write_wins Samples.notes Samples.notes2
           "baseOptions.nullValues" (VArr [VStr ""; VStr "null"]) (VArr [])).
  - reflexivity.
  - reflexivity.
Defined.

(** X9: setting the option [n] of the namespace [ns] of a column changes
    no top-level field other than [ns] (so neither the name nor
    [dataSourceInfo] when [ns] is [baseOptions]) and, inside [ns], no other
    option. *)
Theorem newColumn_keeps_the_rest (c c1 : value) (name ns n : string) (v : value) :
  (exists es, c = VObj es) ->
  (exists inner, get c ns = VObj inner) \/ get c ns = VUndef ->
  split "." name = [ns; n] -> ns <> "" ->
  newColumn c name v = Ok c1 ->
  (forall k, k <> ns -> get c1 k = get c k) /\
  (forall n', n' <> n -> get (get c1 ns) n' = get (get c ns) n').
Proof.
  intros Hc Hns Hsplit Hne Hnew.
  destruct (newColumn_frame c c1 name ns n v Hc Hsplit Hne Hnew) as [Htop Hin].
  split; [exact Htop |]. apply Hin.
  destruct Hns as [[inner ->] | ->]; reflexivity.
Qed.

Lemma newColumn_keeps_the_rest_witness :
  exists c1,
    newColumn Samples.body "fieldOptions.rows" (VNum 5) = Ok c1 /\
    (forall k, k <> "fieldOptions" -> get c1 k = get Samples.body k) /\
    (forall n', n' <> "rows" ->
       get (get c1 "fieldOptions") n' = get (get Samples.body "fieldOptions") n').
Proof.
  eexists. split; [reflexivity |].
  apply (newColumn_keeps_the_rest Samples.body _ "fieldOptions.rows"
           "fieldOptions" "rows" (VNum 5)).
  - eexists. reflexivity.
  - left. eexists. reflexivity.
  - reflexivity.
  - discriminate.
  - reflexivity.
Defined.

(** The handler of a null value checkbox on a typed column. *)
Lemma nullValueChange_typed (c : value) (s : string) (checked : bool) :
  Column.is_column c = true ->
  Controls.nullValueChange c (VStr s) checked =
    Ok (c, "baseOptions.nullValues",
        VArr (if checked
              then (own_entries (Column.baseOption c "nullValues")).*2 ++ [VStr s]
              else Controls.without
                     (own_entries (Column.baseOption c "nullValues")).*2 (VStr s))).
Proof.
  intros (es & nm & bo & _ & _ & Hbo & _)%is_column_inv.
  unfold Controls.nullValueChange, Column.baseOption. rewrite Hbo. reflexivity.
Qed.

Lemma nullValueChecked_array (c : value) (vs : list value) (v : value) :
  (exists bo, get c "baseOptions" = VObj bo) ->
  Column.baseOption c "nullValues" = VArr vs ->
  Controls.nullValueChecked c v = Ok (Controls.includes vs v).
Proof.
  intros [bo Hbo] Hnv. unfold Controls.nullValueChecked, Column.baseOption in *.
  rewrite Hbo in *. run. rewrite Hnv. unfold Controls.Object_values. simpl.
  now rewrite indexed_values.
Qed.

(** X10: a null value checkbox shows what the user chose. After its
    handler ran, the checkbox is checked exactly when the user checked it,
    the other checkboxes are as the old null values had them, no rule ran
    and no other option of the column changed; one render is enough. *)
Theorem nullValue_toggle (fuel : nat) (st : store) (s : string) (checked : bool)
    (i : nat) :
  1 <= fuel ->
  Column.is_column (column st) = true ->
  findColumn (columns st) (column st) = Ok (Some i) ->
  exists c',
    Controls.handle fuel st (fun c => Controls.nullValueChange c (VStr s) checked)
      = Ok (Store (<[i := c']> (columns st)) c') /\
    Controls.nullValueChecked c' (VStr s) = Ok checked /\
    (forall s', s' <> s ->
       Controls.nullValueChecked c' (VStr s')
       = Ok (Controls.includes
               (own_entries (Column.baseOption (column st) "nullValues")).*2
               (VStr s'))) /\
    (forall Y, Y <> "nullValues" ->
       Column.baseOption c' Y = Column.baseOption (column st) Y).
Proof.
  intros Hfuel Hic Hi.
  set (vs := (own_entries (Column.baseOption (column st) "nullValues")).*2).
  set (new := if checked then vs ++ [VStr s] else Controls.without vs (VStr s)).
  destruct (newColumn_baseOption _ "baseOptions.nullValues" "nullValues"
              (VArr new) Hic eq_refl)
    as (c1 & Hnew & _ & HX & Hoth & _ & Hbo1).
  exists c1. split.
  { unfold Controls.handle. rewrite (nullValueChange_typed _ s checked Hic).
    fold vs new. run. apply mutate_quiet; auto; left; now apply Hoth. }
  split.
  { rewrite (nullValueChecked_array c1 new) by assumption. f_equal.
    unfold new. destruct checked.
    - rewrite includes_app. simpl. now rewrite String.eqb_refl, orb_true_r.
    - apply without_excludes. }
  split; [| exact Hoth].
  intros s' Hs'. rewrite (nullValueChecked_array c1 new) by assumption. f_equal.
  assert (E : strict_equal (VStr s') (VStr s) = false) by now apply String.eqb_neq.
  unfold new. destruct checked.
  - rewrite includes_app. simpl.
    apply not_eq_sym, String.eqb_neq in Hs'. now rewrite Hs', orb_false_r.
  - now apply includes_without_other.
Qed.

Lemma nullValue_toggle_witness :
  exists c',
    Controls.handle 1 (Store [Samples.id; Samples.notes] Samples.notes)
      (fun c => Controls.nullValueChange c (VStr "null") true)
      = Ok (Store (<[1 := c']> (columns (Store [Samples.id; Samples.notes] Samples.notes))) c') /\
    Controls.nullValueChecked c' (VStr "null") = Ok true /\
    (forall s', s' <> "null" ->
       Controls.nullValueChecked c' (VStr s')
       = Ok (Controls.includes
               (own_entries
                  (Column.baseOption
                     (column (Store [Samples.id; Samples.notes] Samples.notes))
                     "nullValues")).*2
               (VStr s'))) /\
    (forall Y, Y <> "nullValues" ->
       Column.baseOption c' Y
       = Column.baseOption (column (Store [Samples.id; Samples.notes] Samples.notes)) Y).
Proof.
  apply (nullValue_toggle 1 (Store [Samples.id; Samples.notes] Samples.notes)
           "null" true 1).
  - lia.
  - reflexivity.
  - reflexivity.
Defined.

(** X11: checking a null value that the column does not have and
    unchecking it again restores the column: the page is back in the state
    it was in. *)
Theorem nullValue_check_uncheck (fuel : nat) (st : store) (s : string)
    (vs : list value) (i : nat) :
  1 <= fuel ->
  Column.is_column (column st) = true ->
  findColumn (columns st) (column st) = Ok (Some i) ->
  columns st !! i = Some (column st) ->
  Column.baseOption (column st) "nullValues" = VArr vs ->
  Controls.includes vs (VStr s) = false ->
  exists st1,
    Controls.handle fuel st (fun c => Controls.nullValueChange c (VStr s) true) = Ok st1 /\
    Column.baseOption (column st1) "nullValues" = VArr (vs ++ [VStr s]) /\
    Controls.handle fuel st1 (fun c => Controls.nullValueChange c (VStr s) false) = Ok st.
Proof.
  intros Hfuel Hic Hi Hat Hnv Hs.
  destruct (is_column_inv _ Hic) as (es & nm & bo & Hc & Hnm & Hbo & _).
  pose proof (findColumn_in_range _ _ _ Hi) as Hlt.
  destruct (newColumn_baseOption _ "baseOptions.nullValues" "nullValues"
              (VArr (vs ++ [VStr s])) Hic eq_refl)
    as (c1 & Hnew & Hname & HX & Hoth & [es1 Hes1] & Hbo1).
  pose proof (newColumn_typed _ c1 "baseOptions.nullValues" "nullValues" _
                Hic eq_refl Hnew) as Hic1.
  assert (Hic1' : Column.is_column c1 = true)
    by (apply Hic1; intros [? | ?]; discriminate).
  assert (Hstep1 : Controls.handle fuel st
            (fun c => Controls.nullValueChange c (VStr s) true)
            = Ok (Store (<[i := c1]> (columns st)) c1)).
  { unfold Controls.handle. rewrite (nullValueChange_typed _ s true Hic), Hnv.
    simpl. rewrite indexed_values. run. apply mutate_quiet; auto; left; now apply Hoth. }
  exists (Store (<[i := c1]> (columns st)) c1).
  split; [exact Hstep1 |]. split; [exact HX |].
  assert (Hback : newColumn c1 "baseOptions.nullValues" (VArr vs) = Ok (column st)).
  { rewrite (newColumn_twice (column st) c1 "baseOptions.nullValues"
               (VArr (vs ++ [VStr s])) (VArr vs)); [| now rewrite Hc | exact Hnew].
    now apply (newColumn_same _ _ "nullValues"). }
  assert (Hi1 : findColumn (<[i := c1]> (columns st)) c1 = Ok (Some i)).
  { rewrite <- (findColumn_same_name _ (column st) c1);
      [| now rewrite Hc | now rewrite Hes1 | congruence].
    apply findColumn_insert; [exact Hi | now rewrite Hes1 |].
    rewrite Hname, Hnm. simpl. apply String.eqb_refl. }
  unfold Controls.handle. simpl column.
  rewrite (nullValueChange_typed c1 s false Hic1'), HX. simpl.
  rewrite indexed_values.
  replace (Controls.without (vs ++ [VStr s]) (VStr s)) with vs.
  2:{ unfold Controls.without. rewrite List.filter_app. simpl.
      rewrite String.eqb_refl. simpl. rewrite app_nil_r. symmetry.
      now apply without_absent. }
  run.
  rewrite (mutate_quiet fuel (Store (<[i := c1]> (columns st)) c1) _ _ (column st) i);
    auto.
  - simpl. rewrite list_insert_insert_eq. f_equal. now apply store_insert_id.
  - simpl. exists bo. exact Hbo.
  - simpl. left. symmetry. now apply Hoth.
  - simpl. left. symmetry. now apply Hoth.
Qed.

Lemma nullValue_check_uncheck_witness :
  exists st1,
    Controls.handle 1 (Store [Samples.id; Samples.notes] Samples.notes)
      (fun c => Controls.nullValueChange c (VStr "0") true) = Ok st1 /\
    Column.baseOption (column st1) "nullValues" = VArr ([VStr ""] ++ [VStr "0"]) /\
    Controls.handle 1 st1 (fun c => Controls.nullValueChange c (VStr "0") false)
      = Ok (Store [Samples.id; Samples.notes] Samples.notes).
Proof.
  apply (nullValue_check_uncheck 1 (Store [Samples.id; Samples.notes] Samples.notes)
           "0" [VStr ""] 1).
  - lia.
  - reflexivity.
  - reflexivity.
  - reflexivity.
  - reflexivity.
  - reflexivity.
Defined.

End NullValues.

(** ** What the change-set holds *)

Section ChangeSet.

Import FieldsEditor.

(** X12: a page whose working columns are the baseline is clean: the diff
    is empty, the page is not dirty, and the change-set that saving would
    send holds no column. *)
Theorem page_starts_clean (b : list value) :
  Forall (fun x => Column.well_formed x = true) b ->
  diff b b = VObj [] /\
  isDirty (diff b b) = false /\
  changes (diff b b) b = Ok (VObj []).
Proof.
  intros Hwf. destruct (diff_baseline b Hwf) as [-> _].
  repeat split; reflexivity.
Qed.

Lemma page_starts_clean_witness :
  diff [Samples.id; Samples.notes] [Samples.id; Samples.notes] = VObj [] /\
  isDirty (diff [Samples.id; Samples.notes] [Samples.id; Samples.notes]) = false /\
  changes (diff [Samples.id; Samples.notes] [Samples.id; Samples.notes])
          [Samples.id; Samples.notes] = Ok (VObj []).
Proof.
  apply (page_starts_clean [Samples.id; Samples.notes]). repeat constructor.
Defined.

Lemma fromEntries_keys (l : list (value * value)) (acc : entries) (e : string * value) :
  e ∈ fold_left (fun acc r => obj_set (to_string r.1) r.2 acc) l acc ->
  e ∈ acc \/ exists r, r ∈ l /\ e = (to_string r.1, r.2).
Proof.
  revert acc. induction l as [| r l IH]; intros acc He; simpl in He; [now left |].
  destruct (IH _ He) as [H | (r' & Hr' & ->)].
  - apply elem_of_obj_set in H as [-> | H]; [| now left].
    right. exists r. split; [left | reflexivity].
  - right. exists r'. split; [now right | reflexivity].
Qed.

(** X13: the keys of the change-set are names of working columns, and the
    change-set is empty only for an empty diff: when the page is dirty, saving
    sends at least one column. *)
Theorem changes_keys_are_names (d : value) (ws : list value) :
  nullish d = false ->
  Forall (fun e => Column.addresses ws e = true) (own_entries d) ->
  exists cs,
    changes d ws = Ok (VObj cs) /\
    (forall k, k ∈ cs.*1 -> k ∈ Column.names ws) /\
    (cs = [] <-> own_entries d = []).
Proof.
  intros Hd Hall.
  destruct (mapM_changesEntry ws _ Hall) as (l & Hl & HF).
  unfold changes, Object_entries. rewrite Hd. run. rewrite Hl. unfold fromEntries.
  eexists. split; [reflexivity |]. split.
  - intros k ([k' x] & -> & He)%list_elem_of_fmap.
    apply fromEntries_keys in He as [He | (r & Hr & [= -> ->])];
      [now apply elem_of_nil in He |].
    apply list_elem_of_lookup in Hr as [j Hj].
    destruct (Forall2_lookup_r _ _ _ _ _ HF Hj) as (e & _ & j' & c & co & _ & Hc & _ & ->).
    simpl. unfold Column.names. apply list_elem_of_fmap.
    exists c. split; [reflexivity |]. eapply list_elem_of_lookup_2, Hc.
  - split.
    + intros Hcs. destruct l as [| r l _] using rev_ind.
      * now inversion HF.
      * destruct (fromEntries_last l [] r (Forall_nil_2 _)) as (cs & Hcs' & Hlook).
        unfold fromEntries in Hcs'. injection Hcs' as Hcs'.
        rewrite Hcs' in Hcs. subst cs. discriminate Hlook.
    + intros Hes. rewrite Hes in HF. inversion HF. reflexivity.
Qed.

Lemma changes_keys_are_names_witness :
  exists cs,
    changes (diff [Samples.id; Samples.title] [Samples.id; Samples.title2])
            [Samples.id; Samples.title2] = Ok (VObj cs) /\
    (forall k, k ∈ cs.*1 -> k ∈ Column.names [Samples.id; Samples.title2]) /\
    (cs = [] <->
     own_entries (diff [Samples.id; Samples.title] [Samples.id; Samples.title2]) = []).
Proof.
  apply (changes_keys_are_names
           (diff [Samples.id; Samples.title] [Samples.id; Samples.title2])
           [Samples.id; Samples.title2]).
  - reflexivity.
  - repeat constructor.
Defined.

(** X14: the entry of the change-set for a column holds nothing but what
    the delta of the column holds, apart from the forced [visibility]: every
    top-level field of the patch other than [baseOptions] and [fieldOptions]
    is a field of the delta with the same value, every base option of the
    patch other than [visibility] is a base option of the delta, and every
    field option of the patch is a field option of the delta. *)
Theorem changes_patch_from_delta (d : value) (ws : list value)
    (j : nat) (c delta : value) :
  nullish d = false ->
  Column.distinct (own_entries d).*1 = true ->
  Forall (fun e => Column.addresses ws e = true) (own_entries d) ->
  Column.distinct (Column.names ws) = true ->
  (index_key j, delta) ∈ own_entries d ->
  ws !! j = Some c ->
  exists cs patch,
    changes d ws = Ok cs /\
    get cs (to_string (get c "name")) = patch /\
    (forall e, e ∈ own_entries patch ->
       e.1 = "baseOptions" \/ e.1 = "fieldOptions" \/ e ∈ own_entries delta) /\
    (forall e, e ∈ own_entries (get patch "baseOptions") ->
       e.1 = "visibility" \/ e ∈ own_entries (get delta "baseOptions")) /\
    (forall e, e ∈ own_entries (get patch "fieldOptions") ->
       e ∈ own_entries (get delta "fieldOptions")).
Proof.
  intros Hd Hnd Hall Hnames Hin Hj.
  destruct (changes_entry d ws _ delta Hd Hnd Hall Hnames Hin)
    as (cs & j' & c' & co & Hcs & Hk & Hj' & Hco & Hlook).
  apply index_key_inj in Hk as <-. rewrite Hj in Hj'. injection Hj' as <-.
  exists (VObj cs), co. split; [exact Hcs |].
  split; [now apply get_lookup |].
  rewrite Forall_forall in Hall.
  destruct (addresses_inv ws _ (Hall _ Hin)) as (j' & c' & Hk & Hj' & Hc & Hx).
  simpl in Hk, Hx. apply index_key_inj in Hk as <-.
  rewrite Hj in Hj'. injection Hj' as <-.
  apply is_record_inv in Hc as [_ [bo Hbo]].
  unfold changesObject in Hco. run. rewrite Hx, Hbo in Hco. simpl in Hco.
  injection Hco as <-. repeat split.
  - intros [k x] He. simpl in He.
    apply elem_of_obj_set in He as [[= -> ->] | He]; [auto |].
    apply elem_of_obj_set in He as [[= -> ->] | He]; auto.
  - rewrite get_obj_set_ne, get_obj_set_eq by discriminate. simpl.
    intros [k x] He. apply elem_of_obj_set in He as [[= -> ->] | He]; auto.
  - rewrite get_obj_set_eq. simpl. auto.
Qed.

Lemma changes_patch_from_delta_witness :
  exists cs patch,
    changes (diff [Samples.id; Samples.body] [Samples.id; Samples.body2])
            [Samples.id; Samples.body2] = Ok cs /\
    get cs (to_string (get Samples.body2 "name")) = patch /\
    (forall e, e ∈ own_entries patch ->
       e.1 = "baseOptions" \/ e.1 = "fieldOptions" \/
       e ∈ own_entries (VObj [("fieldOptions", VObj [("rows", VNum 5)])])) /\
    (forall e, e ∈ own_entries (get patch "baseOptions") ->
       e.1 = "visibility" \/
       e ∈ own_entries (get (VObj [("fieldOptions", VObj [("rows", VNum 5)])])
                          "baseOptions")) /\
    (forall e, e ∈ own_entries (get patch "fieldOptions") ->
       e ∈ own_entries (get (VObj [("fieldOptions", VObj [("rows", VNum 5)])])
                          "fieldOptions")).
Proof.
  apply (changes_patch_from_delta
           (diff [Samples.id; Samples.body] [Samples.id; Samples.body2])
           [Samples.id; Samples.body2] 1 Samples.body2
           (VObj [("fieldOptions", VObj [("rows", VNum 5)])])).
  - reflexivity.
  - reflexivity.
  - repeat constructor.
  - reflexivity.
  - left.
  - reflexivity.
Defined.

End ChangeSet.

(** ** The difference of two objects *)

Section ObjectDifference.

Import DeepObjectDiff.

Lemma reduce_props_app (rec : value -> value -> value) (l : value)
    (es es' : entries) (acc : entries) :
  reduce_props rec l (es ++ es') acc =
  reduce_props rec l es' (reduce_props rec l es acc).
Proof. revert acc. induction es as [| e es IH]; intros acc; simpl; auto. Qed.

Lemma obj_set_split (k : string) (x : value) (es : entries) :
  NoDup es.*1 ->
  exists r1 r2,
    obj_set k x es = r1 ++ (k, x) :: r2 /\
    forall e, e ∈ r1 ++ r2 -> e ∈ es /\ e.1 <> k.
Proof.
  intros Hnd.
  destruct (list_elem_of_split _ _ (lookup_key_elem _ _ _ (lookup_obj_set_eq k x es)))
    as (r1 & r2 & Hr).
  exists r1, r2. split; [exact Hr |].
  pose proof (obj_set_NoDup k x es Hnd) as Hnd'. rewrite Hr in Hnd'.
  rewrite fmap_app, fmap_cons in Hnd'. simpl in Hnd'.
  apply NoDup_app in Hnd' as (Hnd1 & Hdis & [Hk2 Hnd2]%NoDup_cons).
  intros e He.
  assert (Hne : e.1 <> k).
  { intros <-. apply elem_of_app in He as [He | He].
    - apply (Hdis e.1); [now apply list_elem_of_fmap_2 | left].
    - apply Hk2. now apply list_elem_of_fmap_2. }
  split; [| exact Hne].
  assert (Hin : e ∈ obj_set k x es).
  { rewrite Hr. apply elem_of_app in He as [He | He]; apply elem_of_app;
      [now left | right; now right]. }
  apply elem_of_obj_set in Hin as [-> | Hin]; [now contradict Hne | exact Hin].
Qed.

Lemma well_formed_entry (es : entries) (e : string * value) :
  Column.well_formed (VObj es) = true -> e ∈ es ->
  lookup_key e.1 es = Some e.2 /\ Column.well_formed e.2 = true.
Proof.
  intros [Hnd%distinct_NoDup Hwf]%well_formed_props He. split.
  - destruct e. now apply lookup_key_NoDup.
  - rewrite Forall_forall in Hwf. now apply Hwf.
Qed.

(** The difference made by setting one property of an object: that
    property alone, with its own difference when it was there before and
    whole when it is new. *)
Lemma diff_set_key (es : entries) (k : string) (x : value) :
  Column.well_formed (VObj es) = true ->
  lookup_key k es = None \/
    (exists old, lookup_key k es = Some old /\ Column.is_delta (diff old x) = true) ->
  diff (VObj es) (VObj (obj_set k x es)) =
  VObj [(k, match lookup_key k es with Some old => diff old x | None => x end)].
Proof.
  intros Hwf Hk. rewrite diff_objects. f_equal.
  pose proof Hwf as [Hnd%distinct_NoDup _]%well_formed_props.
  destruct (obj_set_split k x es Hnd) as (r1 & r2 & Hr & Hrest).
  rewrite deletedValues_covered.
  2:{ simpl. rewrite Forall_forall. intros e He. unfold has_own. simpl.
      destruct (String.eqb_spec e.1 k) as [-> | Hne].
      - now rewrite lookup_obj_set_eq.
      - rewrite lookup_obj_set_ne by exact Hne.
        now destruct (well_formed_entry es e Hwf He) as [-> _]. }
  assert (Hskip : forall r acc, (forall e, e ∈ r -> e ∈ r1 ++ r2) ->
            reduce_props diff (VObj es) r acc = acc).
  { intros r acc Hsub. apply reduce_props_skip. rewrite Forall_forall.
    intros e He. destruct (Hrest e (Hsub e He)) as [Hin _].
    destruct (well_formed_entry es e Hwf Hin) as [Hl Hw].
    unfold has_own, get. simpl. rewrite Hl. split; [reflexivity |].
    now rewrite (diff_same _ Hw). }
  rewrite Hr, reduce_props_app. simpl.
  rewrite (Hskip r1) by (intros e He; apply elem_of_app; now left).
  rewrite Hskip by (intros e He; apply elem_of_app; now right).
  unfold updated, has_own, get. simpl.
  destruct Hk as [-> | (old & -> & Hd)]; simpl; [apply obj_set_nil |].
  unfold Column.is_delta in Hd. apply negb_true_iff in Hd. rewrite Hd.
  apply obj_set_nil.
Qed.

End ObjectDifference.

(** ** From an edit to the change-set *)

Section EditToChanges.

Import FieldsEditor DeepObjectDiff.

Lemma obj_set_well_formed (k : string) (v : value) (es : entries) :
  Column.well_formed (VObj es) = true -> Column.well_formed v = true ->
  Column.well_formed (VObj (obj_set k v es)) = true.
Proof.
  intros [Hnd Hall]%well_formed_props Hv. apply well_formed_props. split.
  - apply NoDup_distinct, obj_set_NoDup. now apply distinct_NoDup.
  - rewrite Forall_forall in *. intros e [-> | He]%elem_of_obj_set; auto.
Qed.

Lemma well_formed_get (es : entries) (k : string) :
  Column.well_formed (VObj es) = true -> Column.well_formed (get (VObj es) k) = true.
Proof.
  intros Hwf. unfold get. simpl. destruct (lookup_key k es) as [x |] eqn:E; [| reflexivity].
  apply lookup_key_elem in E. now destruct (well_formed_entry es (k, x) Hwf E).
Qed.

(** The difference made to a column by setting one option of a
    namespace. *)
Lemma diff_newColumn (es inner : entries) (name ns X : string) (v : value) :
  Column.well_formed (VObj es) = true ->
  split "." name = [ns; X] -> ns <> "" ->
  lookup_key ns es = Some (VObj inner) ->
  lookup_key X inner = None \/
    (exists old, lookup_key X inner = Some old /\ Column.is_delta (diff old v) = true) ->
  let c1 := VObj (obj_set ns (VObj (obj_set X v inner)) es) in
  newColumn (VObj es) name v = Ok c1 /\
  diff (VObj es) c1 =
  VObj [(ns, VObj [(X, match lookup_key X inner with
                       | Some old => diff old v
                       | None => v
                       end)])].
Proof.
  intros Hwf Hsplit Hns Hin Hd c1. split.
  - unfold newColumn. rewrite Hsplit. apply String.eqb_neq in Hns. rewrite Hns. run.
    now rewrite (get_lookup _ _ _ Hin).
  - assert (Hwi : Column.well_formed (VObj inner) = true).
    { rewrite <- (get_lookup _ _ _ Hin). now apply well_formed_get. }
    pose proof (diff_set_key inner X v Hwi Hd) as Hinner.
    unfold c1. rewrite diff_set_key; [now rewrite Hin, Hinner | exact Hwf |].
    right. eexists. split; [exact Hin |]. now rewrite Hinner.
Qed.

(** The page after one edit of a clean page that runs no rule: one entry
    of the working sequence replaced, and a diff of one position. *)
Lemma edit_delta (fuel : nat) (st : store) (name ns X : string) (v : value)
    (i : nat) (inner : entries) :
  1 <= fuel ->
  Column.is_column (column st) = true ->
  findColumn (columns st) (column st) = Ok (Some i) ->
  columns st !! i = Some (column st) ->
  Forall (fun x => Column.well_formed x = true) (columns st) ->
  Column.well_formed v = true ->
  split "." name = [ns; X] -> ns <> "" ->
  get (column st) ns = VObj inner ->
  (ns = "baseOptions" -> X <> "required" /\ X <> "nullable") ->
  lookup_key X inner = None \/
    (exists old, lookup_key X inner = Some old /\ Column.is_delta (diff old v) = true) ->
  let c1 := VObj (obj_set ns (VObj (obj_set X v inner)) (own_entries (column st))) in
  mutate fuel st (column st) name v = Ok (Store (<[i := c1]> (columns st)) c1) /\
  <[i := c1]> (columns st) !! i = Some c1 /\
  FieldsEditor.diff (columns st) (<[i := c1]> (columns st)) =
  VObj [(index_key i,
         VObj [(ns, VObj [(X, match lookup_key X inner with
                              | Some old => diff old v
                              | None => v
                              end)])])].
Proof.
  intros Hfuel Hic Hi Hshown Hwf Hv Hsplit Hns Hin Hrule Hd c1.
  destruct (is_column_inv _ Hic) as (es & nm & bo & Hc & Hnm & Hbo & Hfr & Hfn).
  assert (Hwc : Column.well_formed (column st) = true).
  { rewrite Forall_forall in Hwf. apply Hwf. eapply list_elem_of_lookup_2, Hshown. }
  assert (Hlook : lookup_key ns es = Some (VObj inner)).
  { rewrite Hc in Hin. unfold get in Hin. simpl in Hin.
    destruct (lookup_key ns es); [now subst | discriminate]. }
  rewrite Hc in Hwc.
  destruct (diff_newColumn es inner name ns X v Hwc Hsplit Hns Hlook Hd) as [Hnew Hdiff].
  assert (Hoe : own_entries (column st) = es) by now rewrite Hc.
  subst c1. rewrite Hoe. rewrite <- Hc in Hnew, Hdiff.
  set (c1 := VObj (obj_set ns (VObj (obj_set X v inner)) es)) in *.
  pose proof (findColumn_in_range _ _ _ Hi) as Hlt.
  assert (Hwi : Column.well_formed (VObj inner) = true).
  { rewrite <- (get_lookup _ _ _ Hlook). now apply well_formed_get. }
  split; [| split].
  - apply mutate_quiet; auto.
    + unfold c1. destruct (String.eqb_spec ns "baseOptions") as [-> | Hne].
      * rewrite get_obj_set_eq. eauto.
      * rewrite get_obj_set_ne by congruence. exists bo. now rewrite <- Hc.
    + left. unfold Column.baseOption, c1.
      destruct (String.eqb_spec ns "baseOptions") as [-> | Hne].
      * rewrite get_obj_set_eq, Hc, (get_lookup _ _ _ Hlook).
        apply get_obj_set_ne. destruct (Hrule eq_refl). congruence.
      * rewrite get_obj_set_ne by congruence. now rewrite Hc.
    + left. unfold Column.baseOption, c1.
      destruct (String.eqb_spec ns "baseOptions") as [-> | Hne].
      * rewrite get_obj_set_eq, Hc, (get_lookup _ _ _ Hlook).
        apply get_obj_set_ne. destruct (Hrule eq_refl). congruence.
      * rewrite get_obj_set_ne by congruence. now rewrite Hc.
  - now apply list_lookup_insert_eq.
  - rewrite (diff_single_position (columns st) _ i (column st) c1).
    + now rewrite Hdiff.
    + now rewrite length_insert.
    + exact Hshown.
    + now apply list_lookup_insert_eq.
    + intros j Hj. now rewrite list_lookup_insert_ne.
    + rewrite Forall_forall in *. intros x Hx.
      apply list_elem_of_lookup in Hx as [j Hj].
      destruct (decide (j = i)) as [-> | Hne].
      * rewrite list_lookup_insert_eq in Hj by exact Hlt. injection Hj as <-.
        unfold c1. apply obj_set_well_formed; [exact Hwc |].
        now apply obj_set_well_formed.
      * rewrite list_lookup_insert_ne in Hj by congruence.
        apply Hwf. eapply list_elem_of_lookup_2, Hj.
    + rewrite Hdiff. reflexivity.
Qed.

(** The change-set of a diff of one position. *)
Lemma changes_one (w : list value) (i : nat) (es1 bo1 des : entries) :
  w !! i = Some (VObj es1) ->
  get (VObj es1) "baseOptions" = VObj bo1 ->
  changes (VObj [(index_key i, VObj des)]) w =
  Ok (VObj [(to_string (get (VObj es1) "name"),
             VObj (obj_set "fieldOptions"
                     (VObj (own_entries (get (VObj des) "fieldOptions")))
                     (obj_set "baseOptions"
                        (VObj (obj_set "visibility" (get (VObj bo1) "visibility")
                                 (own_entries (get (VObj des) "baseOptions"))))
                        des)))]).
Proof.
  intros Hi Hbo. unfold changes, Object_entries. run.
  unfold changesEntry. rewrite at_number_index_key, Hi. simpl.
  unfold changesObject. run. rewrite Hbo. simpl.
  unfold fromEntries. simpl. now rewrite obj_set_nil.
Qed.

(** X15: on a clean page, setting one base option of the shown column,
    other than [required], [nullable] and [visibility], to a value that
    differs from the old one makes the page dirty, and the change-set is
    that of the one column, by its name: the option with its difference
    (the value itself when the option is new), the current [visibility], and
    empty [fieldOptions]. *)
Theorem base_option_edit_in_changes (fuel : nat) (st : store) (name X : string)
    (v : value) (i : nat) (bo : entries) :
  1 <= fuel ->
  Column.is_column (column st) = true ->
  findColumn (columns st) (column st) = Ok (Some i) ->
  columns st !! i = Some (column st) ->
  Forall (fun x => Column.well_formed x = true) (columns st) ->
  Column.well_formed v = true ->
  split "." name = ["baseOptions"; X] ->
  X <> "required" -> X <> "nullable" -> X <> "visibility" ->
  get (column st) "baseOptions" = VObj bo ->
  lookup_key X bo = None \/
    (exists old, lookup_key X bo = Some old /\ Column.is_delta (diff old v) = true) ->
  exists st',
    mutate fuel st (column st) name v = Ok st' /\
    isDirty (FieldsEditor.diff (columns st) (columns st')) = true /\
    changes (FieldsEditor.diff (columns st) (columns st')) (columns st') =
    Ok (VObj [(to_string (get (column st) "name"),
               VObj [("baseOptions",
                      VObj [(X, match lookup_key X bo with
                                | Some old => diff old v
                                | None => v
                                end);
                            ("visibility", Column.baseOption (column st) "visibility")]);
                     ("fieldOptions", VObj [])])]).
Proof.
  intros Hfuel Hic Hi Hshown Hwf Hv Hsplit HXr HXn HXv Hbo Hd.
  destruct (is_column_object _ Hic) as [es Hc].
  assert (Hoe : own_entries (column st) = es) by now rewrite Hc.
  destruct (edit_delta fuel st name "baseOptions" X v i bo Hfuel Hic Hi Hshown Hwf Hv
              Hsplit ltac:(discriminate) Hbo ltac:(intros _; now split) Hd)
    as (Hm & Hl & Hdiff).
  rewrite Hoe in Hm, Hl, Hdiff.
  eexists. split; [exact Hm |]. simpl columns. rewrite Hdiff.
  split; [reflexivity |].
  rewrite (changes_one _ i _ (obj_set X v bo) _ Hl) by apply get_obj_set_eq.
  rewrite get_obj_set_ne by discriminate.
  rewrite get_obj_set_ne by congruence.
  unfold Column.baseOption. rewrite Hbo, Hc.
  repeat f_equal. unfold obj_set, has_key. simpl.
  apply String.eqb_neq in HXv. now rewrite HXv.
Qed.

Lemma base_option_edit_in_changes_witness :
  exists st',
    mutate 1 (Store [Samples.id; Samples.title] Samples.title)
      (column (Store [Samples.id; Samples.title] Samples.title))
      "baseOptions.label" (VStr "Title") = Ok st' /\
    isDirty (FieldsEditor.diff
               (columns (Store [Samples.id; Samples.title] Samples.title))
               (columns st')) = true /\
    changes (FieldsEditor.diff
               (columns (Store [Samples.id; Samples.title] Samples.title))
               (columns st')) (columns st') =
    Ok (VObj [(to_string (get (column (Store [Samples.id; Samples.title] Samples.title))
                            "name"),
               VObj [("baseOptions",
                      VObj [("label",
                             match lookup_key "label" (own_entries (get Samples.title "baseOptions")) with
                             | Some old => diff old (VStr "Title")
                             | None => VStr "Title"
                             end);
                            ("visibility",
                             Column.baseOption
                               (column (Store [Samples.id; Samples.title] Samples.title))
                               "visibility")]);
                     ("fieldOptions", VObj [])])]).
Proof.
  apply (base_option_edit_in_changes 1 (Store [Samples.id; Samples.title] Samples.title)
           "baseOptions.label" "label" (VStr "Title") 1
           (own_entries (get Samples.title "baseOptions"))).
  - lia.
  - reflexivity.
  - reflexivity.
  - reflexivity.
  - repeat constructor.
  - reflexivity.
  - reflexivity.
  - discriminate.
  - discriminate.
  - discriminate.
  - reflexivity.
  - left. reflexivity.
Defined.

(** X16: on a clean page, setting one field option of the shown column to
    a value that differs from the old one makes the page dirty, and the
    change-set is that of the one column, by its name: the field option with
    its difference (the value itself when the option is new), and of the base
    options [visibility] alone. *)
Theorem field_option_edit_in_changes (fuel : nat) (st : store) (name X : string)
    (v : value) (i : nat) (fo : entries) :
  1 <= fuel ->
  Column.is_column (column st) = true ->
  findColumn (columns st) (column st) = Ok (Some i) ->
  columns st !! i = Some (column st) ->
  Forall (fun x => Column.well_formed x = true) (columns st) ->
  Column.well_formed v = true ->
  split "." name = ["fieldOptions"; X] ->
  get (column st) "fieldOptions" = VObj fo ->
  lookup_key X fo = None \/
    (exists old, lookup_key X fo = Some old /\ Column.is_delta (diff old v) = true) ->
  exists st',
    mutate fuel st (column st) name v = Ok st' /\
    isDirty (FieldsEditor.diff (columns st) (columns st')) = true /\
    changes (FieldsEditor.diff (columns st) (columns st')) (columns st') =
    Ok (VObj [(to_string (get (column st) "name"),
               VObj [("fieldOptions",
                      VObj [(X, match lookup_key X fo with
                                | Some old => diff old v
                                | None => v
                                end)]);
                     ("baseOptions",
                      VObj [("visibility",
                             Column.baseOption (column st) "visibility")])])]).
Proof.
  intros Hfuel Hic Hi Hshown Hwf Hv Hsplit Hfo Hd.
  destruct (is_column_inv _ Hic) as (es & nm & bo & Hc & Hnm & Hbo & _).
  assert (Hoe : own_entries (column st) = es) by now rewrite Hc.
  destruct (edit_delta fuel st name "fieldOptions" X v i fo Hfuel Hic Hi Hshown Hwf Hv
              Hsplit ltac:(discriminate) Hfo ltac:(discriminate) Hd)
    as (Hm & Hl & Hdiff).
  rewrite Hoe in Hm, Hl, Hdiff.
  eexists. split; [exact Hm |]. simpl columns. rewrite Hdiff.
  split; [reflexivity |].
  rewrite (changes_one _ i _ bo _ Hl)
    by (rewrite get_obj_set_ne by discriminate; now rewrite <- Hc).
  rewrite get_obj_set_ne by discriminate.
  unfold Column.baseOption. rewrite Hbo, Hc.
  repeat f_equal.
Qed.

Lemma field_option_edit_in_changes_witness :
  exists st',
    mutate 1 (Store [Samples.id; Samples.body] Samples.body)
      (column (Store [Samples.id; Samples.body] Samples.body))
      "fieldOptions.rows" (VNum 5) = Ok st' /\
    isDirty (FieldsEditor.diff
               (columns (Store [Samples.id; Samples.body] Samples.body))
               (columns st')) = true /\
    changes (FieldsEditor.diff
               (columns (Store [Samples.id; Samples.body] Samples.body))
               (columns st')) (columns st') =
    Ok (VObj [(to_string (get (column (Store [Samples.id; Samples.body] Samples.body))
                            "name"),
               VObj [("fieldOptions",
                      VObj [("rows",
                             match lookup_key "rows" [("rows", VNum 3); ("cols", VNum 2)] with
                             | Some old => diff old (VNum 5)
                             | None => VNum 5
                             end)]);
                     ("baseOptions",
                      VObj [("visibility",
                             Column.baseOption
                               (column (Store [Samples.id; Samples.body] Samples.body))
                               "visibility")])])]).
Proof.
  apply (field_option_edit_in_changes 1 (Store [Samples.id; Samples.body] Samples.body)
           "fieldOptions.rows" "rows" (VNum 5) 1 [("rows", VNum 3); ("cols", VNum 2)]).
  - lia.
  - reflexivity.
  - reflexivity.
  - reflexivity.
  - repeat constructor.
  - reflexivity.
  - reflexivity.
  - reflexivity.
  - right. exists (VNum 3). split; reflexivity.
Defined.

End EditToChanges.

(** ** The checkbox "Disconnected" *)

Section Disconnected.

Import FieldsEditor.

Lemma disconnected_step (fuel : nat) (st : store) (i : nat) (b : bool) :
  1 <= fuel ->
  Column.is_column (column st) = true ->
  findColumn (columns st) (column st) = Ok (Some i) ->
  Column.baseOption (column st) "disconnected" = VBool b ->
  exists c1,
    newColumn (column st) "baseOptions.disconnected" (VBool (negb b)) = Ok c1 /\
    Controls.handle fuel st Controls.disconnectedChange
      = Ok (Store (<[i := c1]> (columns st)) c1) /\
    Column.is_column c1 = true /\
    get c1 "name" = get (column st) "name" /\
    Column.baseOption c1 "disconnected" = VBool (negb b) /\
    (forall Y, Y <> "disconnected" ->
       Column.baseOption c1 Y = Column.baseOption (column st) Y).
Proof.
  intros Hfuel Hic Hi Hb.
  destruct (is_column_baseOptions _ Hic) as [bo Hbo].
  destruct (newColumn_baseOption (column st) "baseOptions.disconnected" "disconnected"
              (VBool (negb b)) Hic eq_refl)
    as (c1 & Hnew & Hname & HX & Hoth & _ & Hbo1).
  exists c1. split; [exact Hnew |]. split; [| repeat split; auto].
  - unfold Controls.handle, Controls.disconnectedChange. unfold Column.baseOption in Hb.
    run. rewrite Hbo in *. simpl. rewrite Hb. simpl.
    apply mutate_quiet; auto; left; now apply Hoth.
  - now apply (newColumn_typed (column st) c1 "baseOptions.disconnected" "disconnected"
                 (VBool (negb b)) Hic eq_refl Hnew); intros [? | ?].
Qed.

(** X17: the checkbox "Disconnected" is a switch. On a column whose
    [disconnected] is a boolean, one click negates it and leaves every other
    base option and the rest of the working sequence as they were; a second
    click gives back the page as it was before the first. *)
Theorem disconnected_click_twice (fuel : nat) (st : store) (i : nat) (b : bool) :
  1 <= fuel ->
  Column.is_column (column st) = true ->
  findColumn (columns st) (column st) = Ok (Some i) ->
  columns st !! i = Some (column st) ->
  Column.baseOption (column st) "disconnected" = VBool b ->
  exists c1,
    Controls.handle fuel st Controls.disconnectedChange
      = Ok (Store (<[i := c1]> (columns st)) c1) /\
    Column.baseOption c1 "disconnected" = VBool (negb b) /\
    (forall Y, Y <> "disconnected" ->
       Column.baseOption c1 Y = Column.baseOption (column st) Y) /\
    Controls.handle fuel (Store (<[i := c1]> (columns st)) c1)
      Controls.disconnectedChange = Ok st.
Proof.
  intros Hfuel Hic Hi Hshown Hb.
  destruct (disconnected_step fuel st i b Hfuel Hic Hi Hb)
    as (c1 & Hnew & Hh & Hic1 & Hname & HX & Hoth).
  exists c1. split; [exact Hh |]. split; [exact HX |]. split; [exact Hoth |].
  destruct (is_column_inv _ Hic) as (es & nm & bo & Hc & Hnm & Hbo & _).
  destruct (is_column_object _ Hic1) as [es1 Hc1].
  assert (Hi1 : findColumn (<[i := c1]> (columns st)) c1 = Ok (Some i)).
  { rewrite (findColumn_same_name _ c1 (column st));
      [| now rewrite Hc1 | now rewrite Hc | exact Hname].
    apply findColumn_insert; [exact Hi | now rewrite Hc1 |].
    rewrite Hname, Hnm. simpl. apply String.eqb_refl. }
  destruct (disconnected_step fuel (Store (<[i := c1]> (columns st)) c1) i (negb b)
              Hfuel Hic1 Hi1 HX)
    as (c2 & Hnew2 & Hh2 & _).
  rewrite Hh2. simpl in Hnew2 |- *.
  rewrite negb_involutive in Hnew2.
  rewrite (newColumn_twice (column st) c1 "baseOptions.disconnected"
             (VBool (negb b)) (VBool b)) in Hnew2;
    [| now rewrite Hc | exact Hnew].
  rewrite (newColumn_same (column st) "baseOptions.disconnected" "disconnected"
             (VBool b) Hic eq_refl Hb) in Hnew2 by discriminate.
  injection Hnew2 as <-.
  rewrite list_insert_insert_eq. now rewrite store_insert_id.
Qed.

Lemma disconnected_click_twice_witness :
  exists c1,
    Controls.handle 1
      (Store [Samples.id; Samples2.hidden] Samples2.hidden)
      Controls.disconnectedChange
      = Ok (Store (<[1 := c1]> (columns (Store [Samples.id; Samples2.hidden]
                                           Samples2.hidden))) c1) /\
    Column.baseOption c1 "disconnected" = VBool (negb false) /\
    (forall Y, Y <> "disconnected" ->
       Column.baseOption c1 Y =
       Column.baseOption (column (Store [Samples.id; Samples2.hidden]
                                    Samples2.hidden)) Y) /\
    Controls.handle 1
      (Store (<[1 := c1]> (columns (Store [Samples.id; Samples2.hidden]
                                      Samples2.hidden))) c1)
      Controls.disconnectedChange
      = Ok (Store [Samples.id; Samples2.hidden] Samples2.hidden).
Proof.
  apply (disconnected_click_twice 1
           (Store [Samples.id; Samples2.hidden] Samples2.hidden) 1 false).
  - lia.
  - reflexivity.
  - reflexivity.
  - reflexivity.
  - reflexivity.
Defined.

End Disconnected.
